(** * COT reports: column resolution, net positions and consolidation

    A shallow embedding of the decision logic of [main.py]:
    - [COTPlotter.plot_trader_positions]: the date / contract column lookup,
      the two-pass resolution of the Long/Short column pairs of a legacy
      report, and the derivation of the net-position columns;
    - [COTDataManager.consolidate_by_contract]: the merge of the report
      tables by contract;
    - [COTDataManager.get_available_contracts];
    - [COTDataManager.fetch_all_data] and [COTDataManager.load_from_parquet]:
      what they leave in the dictionary of the manager;
    - the file name [COTDataManager.save_to_parquet] gives to a contract, the
      ticks of the date axis of the chart, and [search_contracts] of
      [example_plot.py].

    Modelling conventions.
    - Column names and report types are byte strings; [lower] is Python's
      [str.lower] on ASCII letters.
    - A cell holds a string, an integer or the missing value.  Position
      counts are integers, a timestamp is its nanosecond count.  A numeric
      column has the dtype pandas gives it: [int64], whose subtraction
      wraps, or [float64], whose values have 53 significant bits.  Numbers
      that are no integers are outside the model.
    - A table is the ordered list of its column names and the list of its
      rows, a row being a finite map from column names to cells.
    - [print] is modelled by a log of structured messages, a raised
      exception by an outcome of its own.
    - The parsers of pandas ([pd.to_numeric] and [pd.to_datetime] on
      strings) and the clock are parameters of the functions that use them;
      so are the download, the file system and the parquet reader, and in
      [fetch_all_data] the conversion of a whole column to dates.
    - [isalnum] and [upper] are Python's on ASCII characters; a character
      beyond ASCII is the string of its bytes. *)

From Stdlib Require Import ZArith Lia Ascii String.
From stdpp Require Import base option list gmap strings sorting.

Local Open Scope string_scope.
Local Open Scope list_scope.
Local Open Scope Z_scope.

(** ** Strings *)

Module Str.

Definition lower_ascii (c : ascii) : ascii :=
  let n := nat_of_ascii c in
  if ((65 <=? n) && (n <=? 90))%nat then ascii_of_nat (n + 32) else c.

(** [s.lower()] *)
Fixpoint lower (s : string) : string :=
  match s with
  | EmptyString => EmptyString
  | String c r => String (lower_ascii c) (lower r)
  end.

(** [needle in hay] *)
Fixpoint contains (needle hay : string) : bool :=
  String.prefix needle hay
  || match hay with
     | EmptyString => false
     | String _ r => contains needle r
     end.

(** Truth value of an [Optional[str]]: [None] and [''] are false. *)
Definition truthy (o : option string) : bool :=
  match o with
  | Some (String _ _) => true
  | _ => false
  end.

End Str.

Import Str.

(** ** The position-pair resolver (plot_trader_positions, first and second pass) *)

(** The six local variables of the resolver. *)
Record Resolved := mkResolved {
  comm_long : option string;
  comm_short : option string;
  noncomm_long : option string;
  noncomm_short : option string;
  small_long : option string;
  small_short : option string
}.

Definition unresolved : Resolved := mkResolved None None None None None None.

Definition set_comm_long (c : string) (st : Resolved) : Resolved :=
  mkResolved (Some c) (comm_short st) (noncomm_long st) (noncomm_short st)
             (small_long st) (small_short st).
Definition set_comm_short (c : string) (st : Resolved) : Resolved :=
  mkResolved (comm_long st) (Some c) (noncomm_long st) (noncomm_short st)
             (small_long st) (small_short st).
Definition set_noncomm_long (c : string) (st : Resolved) : Resolved :=
  mkResolved (comm_long st) (comm_short st) (Some c) (noncomm_short st)
             (small_long st) (small_short st).
Definition set_noncomm_short (c : string) (st : Resolved) : Resolved :=
  mkResolved (comm_long st) (comm_short st) (noncomm_long st) (Some c)
             (small_long st) (small_short st).
Definition set_small_long (c : string) (st : Resolved) : Resolved :=
  mkResolved (comm_long st) (comm_short st) (noncomm_long st) (noncomm_short st)
             (Some c) (small_short st).
Definition set_small_short (c : string) (st : Resolved) : Resolved :=
  mkResolved (comm_long st) (comm_short st) (noncomm_long st) (noncomm_short st)
             (small_long st) (Some c).

(** One iteration of the first loop ("Positions" columns). *)
Definition pass1_step (st : Resolved) (col : string) : Resolved :=
  let col_lower := lower col in
  if contains "positions" col_lower then
    if contains "commercial" col_lower && negb (contains "noncommercial" col_lower) then
      if contains "long" col_lower && contains "(all)" col_lower then set_comm_long col st
      else if contains "short" col_lower && contains "(all)" col_lower then set_comm_short col st
      else st
    else if contains "noncommercial" col_lower && negb (contains "spreading" col_lower) then
      if contains "long" col_lower && contains "(all)" col_lower then set_noncomm_long col st
      else if contains "short" col_lower && contains "(all)" col_lower then set_noncomm_short col st
      else st
    else if contains "nonreportable" col_lower then
      if contains "long" col_lower && contains "(all)" col_lower then set_small_long col st
      else if contains "short" col_lower && contains "(all)" col_lower then set_small_short col st
      else st
    else st
  else st.

(** One iteration of the second loop ("Traders" columns). *)
Definition pass2_step (st : Resolved) (col : string) : Resolved :=
  let col_lower := lower col in
  if contains "trader" col_lower then
    if contains "commercial" col_lower && negb (contains "noncommercial" col_lower) then
      if contains "long" col_lower && contains "(all)" col_lower
         && negb (truthy (comm_long st)) then set_comm_long col st
      else if contains "short" col_lower && contains "(all)" col_lower
              && negb (truthy (comm_short st)) then set_comm_short col st
      else st
    else if contains "noncommercial" col_lower && negb (contains "spreading" col_lower) then
      if contains "long" col_lower && contains "(all)" col_lower
         && negb (truthy (noncomm_long st)) then set_noncomm_long col st
      else if contains "short" col_lower && contains "(all)" col_lower
              && negb (truthy (noncomm_short st)) then set_noncomm_short col st
      else st
    else if contains "nonreportable" col_lower then
      if contains "long" col_lower && contains "(all)" col_lower
         && negb (truthy (small_long st)) then set_small_long col st
      else if contains "short" col_lower && contains "(all)" col_lower
              && negb (truthy (small_short st)) then set_small_short col st
      else st
    else st
  else st.

Definition pass1 (cols : list string) : Resolved := fold_left pass1_step cols unresolved.

Definition pass2_loop (cols : list string) (st : Resolved) : Resolved :=
  fold_left pass2_step cols st.

(** The guard of the second loop: [if not noncomm_long or not noncomm_short]. *)
Definition pass2_runs (st : Resolved) : bool :=
  negb (truthy (noncomm_long st)) || negb (truthy (noncomm_short st)).

Definition resolve_positions (cols : list string) : Resolved :=
  let st := pass1 cols in
  if pass2_runs st then pass2_loop cols st else st.

(** ** Tables *)

Inductive Cell :=
| CStr (s : string)
| CInt (z : Z)
| CNull.

#[global] Instance Cell_eq_dec : EqDecision Cell.
Proof. solve_decision. Defined.

Record Table := mkTable {
  columns : list string;
  rows : list (gmap string Cell)
}.

(** [row[col]]; a column absent from the row reads as the missing value. *)
Definition cell (r : gmap string Cell) (col : string) : Cell := default CNull (r !! col).

(** [df.empty]: no row or no column. *)
Definition empty (t : Table) : bool :=
  match rows t, columns t with
  | [], _ => true
  | _, [] => true
  | _, _ => false
  end.

(** [cell == value] of pandas: the missing value equals nothing. *)
Definition cell_eqb (c v : Cell) : bool :=
  match c with
  | CNull => false
  | _ => bool_decide (c = v)
  end.

(** [df[df[col] == v]] *)
Definition select_eq (col : string) (v : Cell) (t : Table) : Table :=
  mkTable (columns t) (filter (λ r, cell_eqb (cell r col) v = true) (rows t)).

(** [df[name] = f(df)], row by row: an existing column is overwritten in
    place, a new one is appended to the column list. *)
Definition assign (name : string) (f : gmap string Cell → Cell) (t : Table) : Table :=
  mkTable (if bool_decide (name ∈ columns t) then columns t else (columns t ++ [name])%list)
          (map (λ r, <[name := f r]> r) (rows t)).

(** The first column whose lower-cased name satisfies [p]. *)
Definition find_col (p : string → bool) (cols : list string) : option string :=
  List.find (λ col, p (lower col)) cols.

Definition is_plot_date_col (col_lower : string) : bool :=
  contains "date" col_lower && contains "yyyy" col_lower.
Definition is_date_col (col_lower : string) : bool := contains "date" col_lower.
Definition is_contract_col (col_lower : string) : bool :=
  contains "market" col_lower || contains "contract" col_lower.

(** The order of [sort_values] on a column of one type: missing values last. *)
Definition cell_leb (a b : Cell) : bool :=
  match a, b with
  | _, CNull => true
  | CNull, _ => false
  | CInt x, CInt y => x <=? y
  | CStr x, CStr y => String.leb x y
  | CInt _, CStr _ => true
  | CStr _, CInt _ => false
  end.

Definition cell_le (a b : Cell) : Prop := cell_leb a b = true.

#[global] Instance cell_le_dec a b : Decision (cell_le a b).
Proof. unfold cell_le. apply _. Defined.

Definition row_le (col : string) (r1 r2 : gmap string Cell) : Prop :=
  cell_le (cell r1 col) (cell r2 col).

#[global] Instance row_le_dec col r1 r2 : Decision (row_le col r1 r2).
Proof. unfold row_le. apply _. Defined.

(** ** Messages and outcomes *)

Inductive Msg :=
| NoDataForContract (contract_name : string)
| CouldNotFindPositionColumns (report_type : string)
| AvailableColumns (cols : list string)
| NotYetSupported (report_type : string)
| ConsolidatingData
| CouldNotFindContractColumn (report_type : string)
| Consolidated (n : nat).

Inductive Exn :=
| ValueError (msg : string)
| DateParseError (s : string)
| IndexError
| TypeError.

(** One [ax.bar] call: label, colour and the values of the net column. *)
Record Bar := mkBar { bar_label : string; bar_color : string; bar_values : list Cell }.

(** What a call of [plot_trader_positions] that returns leaves behind: the
    printed lines, the working copy [plot_df], the [trader_data] list and
    the bars drawn, if any. *)
Record Run := mkRun {
  printed : list Msg;
  final_plot_df : Table;
  final_trader_data : list (string * string * string);
  chart : option (list Bar)
}.

Inductive Outcome :=
| Raised (e : Exn)
| Returned (r : Run).

(** ** Net-position derivation (plot_trader_positions, legacy branch) *)

Section Plotting.

(** [pd.to_numeric] on a string: the integer pandas reads in it, [None]
    when pandas reads no number in it.  A string that pandas reads as a
    number which is no integer (a fraction, an infinity) has no image here;
    the statements on derived values leave such strings out. *)
Variable parse_number : string → option Z.
(** [pd.to_datetime] on a string: [None] when it raises. *)
Variable parse_datetime : string → option Z.

(** What [pd.to_numeric(x, errors='coerce')] reads in one cell; [None] is
    NaN. *)
Definition read_number (c : Cell) : option Z :=
  match c with
  | CInt z => Some z
  | CStr s => parse_number s
  | CNull => None
  end.

Definition in_int64 (z : Z) : bool := (- 2 ^ 63 <=? z) && (z <? 2 ^ 63).

(** The dtype of the coerced column: [int64] when every cell reads as an
    integer of 64 bits, [float64] as soon as one cell reads as NaN.  (A
    column with an integer beyond 64 bits is outside the model; it counts
    as [float64] here.) *)
Definition int64_column (cells : list Cell) : bool :=
  forallb (λ c, match read_number c with Some z => in_int64 z | None => false end) cells.

(** The arithmetic of [int64]: the result modulo 2^64. *)
Definition wrap64 (z : Z) : Z := (z + 2 ^ 63) `mod` 2 ^ 64 - 2 ^ 63.

(** The arithmetic of [float64] on integers: the nearest number with 53
    significant bits, ties to the even one. *)
Definition round53 (z : Z) : Z :=
  let bits := Z.log2 (Z.abs z) + 1 in
  if bits <=? 53 then z
  else
    let e := bits - 53 in
    let q := Z.abs z `div` 2 ^ e in
    let r := Z.abs z `mod` 2 ^ e in
    let half := 2 ^ (e - 1) in
    let q := if (half <? r) || ((r =? half) && Z.odd q) then q + 1 else q in
    Z.sgn z * (q * 2 ^ e).

(** One cell of [pd.to_numeric(column, errors='coerce').fillna(0)], in a
    column of the given dtype. *)
Definition to_numeric (int64 : bool) (c : Cell) : Z :=
  match read_number c with
  | Some z => if int64 then z else round53 z
  | None => 0
  end.

(** [a - b] on two cells of numeric columns: in [int64] when both columns
    are, in [float64] otherwise. *)
Definition cell_sub (int64 : bool) (a b : Cell) : Cell :=
  match a, b with
  | CInt x, CInt y =>
      CInt (if int64 then wrap64 (x - y) else round53 (round53 x - round53 y))
  | _, _ => CNull
  end.

(** [plot_df[col] = pd.to_numeric(plot_df[col], errors='coerce').fillna(0)];
    the dtype of the column goes with the table. *)
Definition coerce_column (col : string) (t : Table) : bool * Table :=
  let int64 := int64_column (map (λ r, cell r col) (rows t)) in
  (int64, assign col (λ r, CInt (to_numeric int64 (cell r col))) t).

(** One [if long and short:] block. *)
Definition derive_category (long short : option string) (net label color : string)
    (st : Table * list (string * string * string)) : Table * list (string * string * string) :=
  match long, short with
  | Some l, Some s =>
      if truthy long && truthy short then
        let '(int64_l, t) := coerce_column l st.1 in
        let '(int64_s, t) := coerce_column s t in
        let t := assign net (λ r, cell_sub (int64_l && int64_s) (cell r l) (cell r s)) t in
        (t, (st.2 ++ [(label, net, color)])%list)
      else st
  | _, _ => st
  end.

Definition derive (rs : Resolved) (t : Table) : Table * list (string * string * string) :=
  let st := (t, []) in
  let st := derive_category (comm_long rs) (comm_short rs)
              "Commercial_Net" "Large Commercials" "red" st in
  let st := derive_category (noncomm_long rs) (noncomm_short rs)
              "NonCommercial_Net" "Large Speculators" "blue" st in
  derive_category (small_long rs) (small_short rs)
    "NonReportable_Net" "Small Speculators" "yellow" st.

Definition bar_of (t : Table) (d : string * string * string) : Bar :=
  mkBar d.1.1 d.2 (map (λ r, cell r d.1.2) (rows t)).

(** The body of [if 'legacy' in report_type.lower():]. *)
Definition legacy_branch (report_type : string) (t : Table) : Outcome :=
  let rs := resolve_positions (columns t) in
  let '(t', td) := derive rs t in
  match td with
  | [] => Returned (mkRun [CouldNotFindPositionColumns report_type; AvailableColumns (columns t')]
                          t' [] None)
  | _ => Returned (mkRun [] t' td (Some (map (bar_of t') td)))
  end.

(** ** The steps before the branch *)

(** [pd.to_datetime] on one cell. *)
Definition to_datetime (c : Cell) : Exn + Cell :=
  match c with
  | CStr s => match parse_datetime s with
              | Some t => inr (CInt t)
              | None => inl (DateParseError s)
              end
  | CInt z => inr (CInt z)
  | CNull => inr CNull
  end.

(** [plot_df[date_col] = pd.to_datetime(plot_df[date_col])] *)
Fixpoint convert_dates (date_col : string) (rs : list (gmap string Cell))
    : Exn + list (gmap string Cell) :=
  match rs with
  | [] => inr []
  | r :: rs' =>
      match to_datetime (cell r date_col) with
      | inl e => inl e
      | inr c =>
          match convert_dates date_col rs' with
          | inl e => inl e
          | inr rs'' => inr (<[date_col := c]> r :: rs'')
          end
      end
  end.

Definition day_ns : Z := 86400 * 1000000000.
(** [pd.to_datetime(d.strftime('%Y-%m-%d'))]: the start of the day of [d]. *)
Definition midnight (t : Z) : Z := t - t `mod` day_ns.

(** The bound given by a date argument, when it is truthy. *)
Definition bound (d : option string) : Exn + option Z :=
  if truthy d then
    match d with
    | Some s => match parse_datetime s with
                | Some t => inr (Some t)
                | None => inl (DateParseError s)
                end
    | None => inr None
    end
  else inr None.

Definition date_geb (c : Cell) (t : Z) : bool :=
  match c with CInt z => t <=? z | _ => false end.
Definition date_leb (c : Cell) (t : Z) : bool :=
  match c with CInt z => z <=? t | _ => false end.

Definition keep_rows (p : gmap string Cell → bool) (t : Table) : Table :=
  mkTable (columns t) (filter (λ r, p r = true) (rows t)).

Definition filter_bound (cmp : Cell → Z → bool) (date_col : string) (b : option Z)
    (t : Table) : Table :=
  match b with
  | Some d => keep_rows (λ r, cmp (cell r date_col) d) t
  | None => t
  end.

Definition sort_rows (col : string) (t : Table) : Table :=
  mkTable (columns t) (merge_sort (row_le col) (rows t)).

(** Everything up to the sorted working copy [plot_df]: either the call is
    over (an exception, or the early return), or [plot_df] is ready. *)
Definition prepare (now : Z) (df : Table) (contract_name : string)
    (start_date end_date : option string) : Outcome + Table :=
  match find_col is_plot_date_col (columns df) with
  | None => inl (Raised (ValueError "Could not find date column in dataframe"))
  | Some date_col =>
  match find_col is_contract_col (columns df) with
  | None => inl (Raised (ValueError "Could not find contract column in dataframe"))
  | Some contract_col =>
  let plot_df := select_eq contract_col (CStr contract_name) df in
  if empty plot_df then inl (Returned (mkRun [NoDataForContract contract_name] plot_df [] None))
  else
  match convert_dates date_col (rows plot_df) with
  | inl e => inl (Raised e)
  | inr rs =>
  let plot_df := mkTable (columns plot_df) rs in
  let '(start_date, end_date) :=
    if negb (truthy start_date) && negb (truthy end_date)
    then (inr (Some (midnight (now - 5 * 365 * day_ns))), inr (Some (midnight now)))
    else (bound start_date, bound end_date) in
  match start_date with
  | inl e => inl (Raised e)
  | inr lo =>
  let plot_df := filter_bound date_geb date_col lo plot_df in
  match end_date with
  | inl e => inl (Raised e)
  | inr hi =>
  let plot_df := filter_bound date_leb date_col hi plot_df in
  inr (sort_rows date_col plot_df)
  end end end end end.

Definition plot_trader_positions (now : Z) (df : Table) (contract_name report_type : string)
    (start_date end_date : option string) : Outcome :=
  match prepare now df contract_name start_date end_date with
  | inl o => o
  | inr plot_df =>
      if contains "legacy" (lower report_type) then legacy_branch report_type plot_df
      else Returned (mkRun [NotYetSupported report_type] plot_df [] None)
  end.

End Plotting.

(** ** Consolidation (consolidate_by_contract) *)

#[global] Instance Cell_countable : Countable Cell.
Proof.
  refine (inj_countable'
    (λ c, match c with CStr s => inl s | CInt z => inr (inl z) | CNull => inr (inr ()) end)
    (λ x, match x with inl s => CStr s | inr (inl z) => CInt z | inr (inr _) => CNull end) _).
  by intros [].
Defined.

(** [series.unique()]: the distinct values, in order of first appearance. *)
Fixpoint unique (l : list Cell) : list Cell :=
  match l with
  | [] => []
  | x :: l' => x :: filter (λ y, y ≠ x) (unique l')
  end.

Definition column_values (col : string) (t : Table) : list Cell :=
  map (λ r, cell r col) (rows t).

(** [pd.concat([a, b])]: the columns of [a], then the new ones of [b]; the
    rows of [a], then those of [b]. *)
Definition pd_concat (a b : Table) : Table :=
  mkTable (columns a ++ filter (λ c, c ∉ columns a) (columns b)) (rows a ++ rows b).

(** [drop_duplicates(subset=[col], keep='last')]: a row goes when a later row
    has the same value in [col]. *)
Fixpoint drop_duplicates (col : string) (rs : list (gmap string Cell)) : list (gmap string Cell) :=
  match rs with
  | [] => []
  | r :: rs' =>
      if bool_decide (cell r col ∈ map (λ r', cell r' col) rs')
      then drop_duplicates col rs'
      else r :: drop_duplicates col rs'
  end.

Definition is_str (c : Cell) : bool := match c with CStr _ => true | _ => false end.
Definition is_int (c : Cell) : bool := match c with CInt _ => true | _ => false end.

(** Strings and numbers cannot be compared with each other. *)
Definition comparable (l : list Cell) : bool :=
  negb (existsb is_str l && existsb is_int l).

(** [sort_values(col)]: ascending, missing values last; [TypeError] when the
    column mixes strings and numbers. *)
Definition sort_values (col : string) (t : Table) : Exn + Table :=
  if comparable (column_values col t)
  then inr (mkTable (columns t) (merge_sort (row_le col) (rows t)))
  else inl TypeError.

(** The merge of the rows of one more table into the table of a contract. *)
Definition merge_contract (existing contract_data : Table) : Exn + Table :=
  match find_col is_date_col (columns contract_data) with
  | None => inl IndexError
  | Some date_col =>
      let both := pd_concat existing contract_data in
      sort_values date_col (mkTable (columns both) (drop_duplicates date_col (rows both)))
  end.

(** One iteration of [for contract in unique_contracts]. *)
Definition add_contract (df : Table) (contract_col : string)
    (acc : Exn + gmap Cell Table) (contract : Cell) : Exn + gmap Cell Table :=
  match acc with
  | inl e => inl e
  | inr consolidated =>
      let contract_data := select_eq contract_col contract df in
      match consolidated !! contract with
      | Some existing =>
          match merge_contract existing contract_data with
          | inl e => inl e
          | inr merged => inr (<[contract := merged]> consolidated)
          end
      | None => inr (<[contract := contract_data]> consolidated)
      end
  end.

(** One iteration of [for report_type, df in self.dataframes.items()]; after an
    exception nothing runs any more. *)
Definition add_table (st : list Msg * (Exn + gmap Cell Table)) (entry : string * Table)
    : list Msg * (Exn + gmap Cell Table) :=
  match st.2 with
  | inl _ => st
  | inr _ =>
      if empty entry.2 then st
      else match find_col is_contract_col (columns entry.2) with
           | None => (st.1 ++ [CouldNotFindContractColumn entry.1], st.2)
           | Some contract_col =>
               (st.1, fold_left (add_contract entry.2 contract_col)
                                (unique (column_values contract_col entry.2)) st.2)
           end
  end.

Definition consolidate_by_contract (dataframes : list (string * Table))
    : list Msg * (Exn + gmap Cell Table) :=
  let st := fold_left add_table dataframes ([ConsolidatingData], inr ∅) in
  match st.2 with
  | inl _ => st
  | inr consolidated => (st.1 ++ [Consolidated (size consolidated)], st.2)
  end.

(** *** Consolidation, contract by contract

    What [consolidate_by_contract] does to one key, stated without the
    dictionary: the tables a contract comes from, and the merge of two tables
    when nothing is raised. *)

(** The table [merge_contract] returns when it returns. *)
Definition merge_table (date_col : string) (existing contract_data : Table) : Table :=
  let both := pd_concat existing contract_data in
  mkTable (columns both)
          (merge_sort (row_le date_col) (drop_duplicates date_col (rows both))).

(** The rows one table of the collection holds for a contract, when the table
    is read at all and the contract is one of its identifiers. *)
Definition contribution (contract : Cell) (entry : string * Table) : option Table :=
  if empty entry.2 then None
  else match find_col is_contract_col (columns entry.2) with
       | None => None
       | Some contract_col =>
           if bool_decide (contract ∈ column_values contract_col entry.2)
           then Some (select_eq contract_col contract entry.2)
           else None
       end.

Definition contributions (contract : Cell) (dataframes : list (string * Table)) : list Table :=
  omap (contribution contract) dataframes.

Definition step_merge (date_col : string) (acc : option Table) (t : Table) : option Table :=
  Some (match acc with Some a => merge_table date_col a t | None => t end).


(** [r] occurs in [rs] and no later row has its value in [col]. *)
Definition last_occurrence (col : string) (r : gmap string Cell)
    (rs : list (gmap string Cell)) : Prop :=
  ∃ pre post, rs = pre ++ r :: post ∧ cell r col ∉ map (λ r', cell r' col) post.

(** The values of column [col] over all the tables of the collection. *)
Definition all_values (col : string) (dataframes : list (string * Table)) : list Cell :=
  flat_map (λ entry, column_values col entry.2) dataframes.

(** The values of [col] in [rs] are among [vs]. *)
Definition values_within (col : string) (vs : list Cell) (rs : list (gmap string Cell)) : Prop :=
  ∀ r, r ∈ rs → cell r col ∈ vs.

Definition tables_within (col : string) (vs : list Cell) (c : gmap Cell Table) : Prop :=
  ∀ k t, c !! k = Some t → values_within col vs (rows t).

(** ** get_available_contracts *)

(** [sorted(l)]: [TypeError] when a string meets a number or a missing value
    ([<] is not defined between them).  The order of Python is the one of
    [cell_leb] on strings and on integers.  On numbers with a missing value
    among them the list of Python depends on how the column holds the
    missing value; the statements on the result do not cover that case. *)
Definition sorted (l : list Cell) : Exn + list Cell :=
  if existsb is_str l && existsb (λ x, negb (is_str x)) l then inl TypeError
  else inr (merge_sort cell_le l).

(** [self.dataframes[report_type]], when the key is there. *)
Definition lookup_report (report_type : string) (dataframes : list (string * Table))
    : option Table :=
  snd <$> List.find (λ e, bool_decide (e.1 = report_type)) dataframes.

Definition get_available_contracts (dataframes : list (string * Table))
    (report_type : string) : Exn + list Cell :=
  match lookup_report report_type dataframes with
  | None => inr []
  | Some df =>
      if empty df then inr []
      else match find_col is_contract_col (columns df) with
           | Some col => sorted (unique (column_values col df))
           | None => inr []
           end
  end.

(** ** Instances of the parsers

    They agree with pandas on the strings they accept: decimal integers and
    [YYYY-MM-DD] dates; the conversion of a column is the one of a column of
    such dates.  The concrete runs below use them. *)

Module Parsers.

Definition digit (c : ascii) : option Z :=
  let n := Z.of_nat (nat_of_ascii c) in
  if (48 <=? n) && (n <=? 57) then Some (n - 48) else None.

Fixpoint digits (s : string) (acc : Z) : option Z :=
  match s with
  | EmptyString => Some acc
  | String c r => match digit c with
                  | Some d => digits r (10 * acc + d)
                  | None => None
                  end
  end.

Definition decimal_number (s : string) : option Z :=
  match s with
  | EmptyString => None
  | String "-" (String c r) => Z.opp <$> digits (String c r) 0
  | _ => digits s 0
  end.

(** Days since 1970-01-01 of a civil date. *)
Definition days_from_civil (y m d : Z) : Z :=
  let y := if m <=? 2 then y - 1 else y in
  let era := y `div` 400 in
  let yoe := y - era * 400 in
  let doy := (153 * (if 2 <? m then m - 3 else m + 9) + 2) `div` 5 + d - 1 in
  let doe := yoe * 365 + yoe `div` 4 - yoe `div` 100 + doy in
  era * 146097 + doe - 719468.

Definition iso_datetime (s : string) : option Z :=
  if bool_decide (String.length s = 10%nat)
     && bool_decide (String.get 4 s = Some "-"%char)
     && bool_decide (String.get 7 s = Some "-"%char) then
    y ← digits (String.substring 0 4 s) 0;
    m ← digits (String.substring 5 2 s) 0;
    d ← digits (String.substring 8 2 s) 0;
    if (1 <=? m) && (m <=? 12) && (1 <=? d) && (d <=? 31)
    then Some (days_from_civil y m d * day_ns) else None
  else None.

(** [pd.to_datetime] on a column of [YYYY-MM-DD] strings. *)
Definition iso_datetime_column (l : list Cell) : option (list Cell) :=
  mapM (λ c, match c with CStr s => CInt <$> iso_datetime s | _ => None end) l.

End Parsers.

(** ** The resolver, role by role

    The same rules as [pass1_step] and [pass2_step], stated once for the six
    roles; the lemmas below relate the two forms. *)

Inductive Category := Commercial | NonCommercial | NonReportable.
Inductive Side := Long | Short.

#[global] Instance Category_eq_dec : EqDecision Category.
Proof. solve_decision. Defined.
#[global] Instance Side_eq_dec : EqDecision Side.
Proof. solve_decision. Defined.

Definition get (c : Category) (s : Side) (st : Resolved) : option string :=
  match c, s with
  | Commercial, Long => comm_long st
  | Commercial, Short => comm_short st
  | NonCommercial, Long => noncomm_long st
  | NonCommercial, Short => noncomm_short st
  | NonReportable, Long => small_long st
  | NonReportable, Short => small_short st
  end.

Definition set (c : Category) (s : Side) (col : string) (st : Resolved) : Resolved :=
  match c, s with
  | Commercial, Long => set_comm_long col st
  | Commercial, Short => set_comm_short col st
  | NonCommercial, Long => set_noncomm_long col st
  | NonCommercial, Short => set_noncomm_short col st
  | NonReportable, Long => set_small_long col st
  | NonReportable, Short => set_small_short col st
  end.

(** The [if / elif / elif] chain on the category tokens. *)
Definition category_of (col_lower : string) : option Category :=
  if contains "commercial" col_lower && negb (contains "noncommercial" col_lower)
  then Some Commercial
  else if contains "noncommercial" col_lower && negb (contains "spreading" col_lower)
  then Some NonCommercial
  else if contains "nonreportable" col_lower then Some NonReportable
  else None.

Definition has_side (s : Side) (col_lower : string) : bool :=
  match s with
  | Long => contains "long" col_lower && contains "(all)" col_lower
  | Short => contains "short" col_lower && contains "(all)" col_lower
  end.

(** The role the first loop gives a column: [long] is tested before [short]. *)
Definition classify1 (col : string) : option (Category * Side) :=
  let col_lower := lower col in
  if contains "positions" col_lower then
    match category_of col_lower with
    | Some c => if has_side Long col_lower then Some (c, Long)
                else if has_side Short col_lower then Some (c, Short)
                else None
    | None => None
    end
  else None.

(** A column the second loop may give to the role. *)
Definition candidate2 (c : Category) (s : Side) (col : string) : bool :=
  let col_lower := lower col in
  contains "trader" col_lower
  && bool_decide (category_of col_lower = Some c)
  && has_side s col_lower.

(** A column the second loop gives to the role whenever the role is free:
    for [Short], the column must not pass the [long] test. *)
Definition qualifies2 (c : Category) (s : Side) (col : string) : bool :=
  candidate2 c s col
  && match s with Long => true | Short => negb (has_side Long (lower col)) end.

(** The column the first loop leaves in a role: the last column of the
    table that the loop gives to the role. *)
Definition last_match1 (c : Category) (s : Side) (cols : list string) : option string :=
  last (filter (λ col, classify1 col = Some (c, s)) cols).

(** A column the second loop gives to a free role, given whether the Long
    role of the category is resolved when the column is examined: a
    candidate for Short that also passes the [long] test goes to Short only
    when Long is resolved already. *)
Definition takes2 (c : Category) (s : Side) (long_resolved : bool) (col : string) : bool :=
  candidate2 c s col
  && match s with
     | Long => true
     | Short => negb (has_side Long (lower col)) || long_resolved
     end.

(** The column a role left free by the first loop holds after the second
    loop: the first column of the table that the loop gives to the role.
    The Long role of the category is resolved from the first candidate for
    it onwards. *)
Fixpoint first_taken2 (c : Category) (s : Side) (long_resolved : bool) (cols : list string)
    : option string :=
  match cols with
  | [] => None
  | col :: cols' =>
      if takes2 c s long_resolved col then Some col
      else first_taken2 c s (long_resolved || candidate2 c Long col) cols'
  end.

Definition net_names : list string :=
  ["Commercial_Net"; "NonCommercial_Net"; "NonReportable_Net"].

(** What one [if long and short:] block does to one row, given the dtypes
    of the two coerced columns. *)
Definition derive_row_category (parse_number : string → option Z) (int64 : bool * bool)
    (long short : option string) (net : string) (r : gmap string Cell) : gmap string Cell :=
  match long, short with
  | Some l, Some s =>
      if truthy long && truthy short then
        let r := <[l := CInt (to_numeric parse_number int64.1 (cell r l))]> r in
        let r := <[s := CInt (to_numeric parse_number int64.2 (cell r s))]> r in
        <[net := cell_sub (int64.1 && int64.2) (cell r l) (cell r s)]> r
      else r
  | _, _ => r
  end.

Definition derive_row (parse_number : string → option Z) (int64 : Category → bool * bool)
    (rs : Resolved) (r : gmap string Cell) : gmap string Cell :=
  let r := derive_row_category parse_number (int64 Commercial)
             (comm_long rs) (comm_short rs) "Commercial_Net" r in
  let r := derive_row_category parse_number (int64 NonCommercial)
             (noncomm_long rs) (noncomm_short rs) "NonCommercial_Net" r in
  derive_row_category parse_number (int64 NonReportable)
    (small_long rs) (small_short rs) "NonReportable_Net" r.

(** *** The cells the statements on derived values speak of

    A cell is plain when pandas reads it without rounding and the reading is
    beyond doubt: an integer of magnitude at most 2^52; a missing value; a
    string of ASCII characters that is the decimal literal of such an
    integer; or a string of ASCII characters with no digit that does not
    spell an infinity, which pandas reads as no number. *)

Definition is_ascii (c : ascii) : bool := (nat_of_ascii c <? 128)%nat.

Fixpoint all_chars (p : ascii → bool) (s : string) : bool :=
  match s with
  | EmptyString => true
  | String c r => p c && all_chars p r
  end.

Definition has_digit (s : string) : bool :=
  negb (all_chars (λ c, negb (bool_decide (is_Some (Parsers.digit c)))) s).

Definition plain (parse_number : string → option Z) (c : Cell) : Prop :=
  match c with
  | CInt z => Z.abs z ≤ 2 ^ 52
  | CNull => True
  | CStr s =>
      all_chars is_ascii s = true
      ∧ match Parsers.decimal_number s with
        | Some z => parse_number s = Some z ∧ Z.abs z ≤ 2 ^ 52
        | None => parse_number s = None
                  ∧ has_digit s = false ∧ contains "inf" (lower s) = false
        end
  end.

(** The number of a plain cell: the integer it holds or spells, 0 for a
    missing value and for a string that is no number. *)
Definition number_of (c : Cell) : Z :=
  match c with
  | CInt z => z
  | CStr s => default 0 (Parsers.decimal_number s)
  | CNull => 0
  end.

(** The pair of a category is complete. *)
Definition complete (c : Category) (rs : Resolved) : bool :=
  truthy (get c Long rs) && truthy (get c Short rs).

Definition net_name (c : Category) : string :=
  match c with
  | Commercial => "Commercial_Net"
  | NonCommercial => "NonCommercial_Net"
  | NonReportable => "NonReportable_Net"
  end.

(** The resolved columns are non-empty names and none is a net column. *)
Definition sources_apart (rs : Resolved) : Prop :=
  ∀ c sd x, get c sd rs = Some x → x ≠ "" ∧ x ∉ net_names.

(** ** Concrete tables *)

Definition gold_df : Table :=
  mkTable ["Market_and_Exchange_Names"; "Report_Date_as_YYYY-MM-DD";
           "Comm_Positions_Long_All"; "Comm_Positions_Short_All"]
          [ {[ "Market_and_Exchange_Names" := CStr "GOLD";
               "Report_Date_as_YYYY-MM-DD" := CStr "2024-01-02";
               "Comm_Positions_Long_All" := CInt 1000;
               "Comm_Positions_Short_All" := CInt 400 ]} ].

Definition two_commercial_long : list string :=
  ["Commercial Positions-Long (All)"; "Commercial Positions-Long (All) - revised"].

Definition speculator_positions_commercial_traders : list string :=
  ["Noncommercial Positions-Long (All)"; "Noncommercial Positions-Short (All)";
   "Traders-Commercial-Long (All)"; "Traders-Commercial-Short (All)"].

(** A legacy table in the "positions" naming, with one unparsable cell. *)
Definition legacy_df : Table :=
  mkTable ["Market and Exchange Names"; "As of Date in Form YYYY-MM-DD";
           "Commercial Positions-Long (All)"; "Commercial Positions-Short (All)"]
          [ {[ "Market and Exchange Names" := CStr "GOLD";
               "As of Date in Form YYYY-MM-DD" := CInt 1704758400000000000;
               "Commercial Positions-Long (All)" := CStr "n/a";
               "Commercial Positions-Short (All)" := CInt 400 ]};
            {[ "Market and Exchange Names" := CStr "GOLD";
               "As of Date in Form YYYY-MM-DD" := CInt 1704153600000000000;
               "Commercial Positions-Long (All)" := CInt 1000;
               "Commercial Positions-Short (All)" := CInt 400 ]} ].

(** A legacy table whose position counts are strings: a decimal literal, and
    a string that is no number. *)
Definition counts_df : Table :=
  mkTable ["Market and Exchange Names"; "As of Date in Form YYYY-MM-DD";
           "Commercial Positions-Long (All)"; "Commercial Positions-Short (All)"]
          [ {[ "Market and Exchange Names" := CStr "GOLD";
               "As of Date in Form YYYY-MM-DD" := CInt 1704153600000000000;
               "Commercial Positions-Long (All)" := CStr "1000";
               "Commercial Positions-Short (All)" := CInt 400 ]};
            {[ "Market and Exchange Names" := CStr "GOLD";
               "As of Date in Form YYYY-MM-DD" := CInt 1704758400000000000;
               "Commercial Positions-Long (All)" := CStr "n/a";
               "Commercial Positions-Short (All)" := CStr "250" ]} ].

(** Two columns of 64-bit integers whose difference has 65 bits. *)
Definition wide_df : Table :=
  mkTable ["Commercial Positions-Long (All)"; "Commercial Positions-Short (All)"]
          [ {[ "Commercial Positions-Long (All)" := CInt 9223372036854775807;
               "Commercial Positions-Short (All)" := CInt (-1) ]} ].

(** A Long column that holds a string that is no number, and 2^53 + 1. *)
Definition odd_df : Table :=
  mkTable ["Commercial Positions-Long (All)"; "Commercial Positions-Short (All)"]
          [ {[ "Commercial Positions-Long (All)" := CStr "n/a";
               "Commercial Positions-Short (All)" := CInt 0 ]};
            {[ "Commercial Positions-Long (All)" := CInt 9007199254740993;
               "Commercial Positions-Short (All)" := CInt 0 ]} ].

(** A table with no date column. *)
Definition undated_df : Table :=
  mkTable ["Market and Exchange Names"; "Commercial Positions-Long (All)"]
          [ {[ "Market and Exchange Names" := CStr "GOLD";
               "Commercial Positions-Long (All)" := CInt 1000 ]} ].

(** Two reports with the same columns.  GOLD is in both, with one date in
    common; the first report is not in date order and has one date twice. *)
Definition first_report_df : Table :=
  mkTable ["Market_and_Exchange_Names"; "Report_Date_as_YYYY-MM-DD"; "Open_Interest_All"]
          [ {[ "Market_and_Exchange_Names" := CStr "GOLD";
               "Report_Date_as_YYYY-MM-DD" := CStr "2024-01-09";
               "Open_Interest_All" := CInt 110 ]};
            {[ "Market_and_Exchange_Names" := CStr "GOLD";
               "Report_Date_as_YYYY-MM-DD" := CStr "2024-01-02";
               "Open_Interest_All" := CInt 100 ]};
            {[ "Market_and_Exchange_Names" := CStr "OIL";
               "Report_Date_as_YYYY-MM-DD" := CStr "2024-01-02";
               "Open_Interest_All" := CInt 50 ]};
            {[ "Market_and_Exchange_Names" := CStr "GOLD";
               "Report_Date_as_YYYY-MM-DD" := CStr "2024-01-02";
               "Open_Interest_All" := CInt 101 ]} ].

Definition second_report_df : Table :=
  mkTable ["Market_and_Exchange_Names"; "Report_Date_as_YYYY-MM-DD"; "Open_Interest_All"]
          [ {[ "Market_and_Exchange_Names" := CStr "GOLD";
               "Report_Date_as_YYYY-MM-DD" := CStr "2024-01-16";
               "Open_Interest_All" := CInt 120 ]};
            {[ "Market_and_Exchange_Names" := CStr "GOLD";
               "Report_Date_as_YYYY-MM-DD" := CStr "2024-01-09";
               "Open_Interest_All" := CInt 999 ]} ].

Definition two_reports : list (string * Table) :=
  [("legacy_fut", first_report_df); ("disaggregated_fut", second_report_df)].



(** ** File names of the contract files (save_to_parquet) *)

(** [c.isalnum()] on an ASCII character; a character beyond ASCII is several
    bytes here, and none of them counts as a letter or a digit. *)
Definition isalnum (c : ascii) : bool :=
  let n := nat_of_ascii c in
  ((48 <=? n) && (n <=? 57) || (65 <=? n) && (n <=? 90) || (97 <=? n) && (n <=? 122))%nat.

(** [c if c.isalnum() or c in (' ', '-', '_') else '_'] *)
Definition keep_or_underscore (c : ascii) : ascii :=
  if isalnum c || bool_decide (c ∈ [" "; "-"; "_"]%char) then c else "_"%char.

(** The characters of a string, each through [f]. *)
Fixpoint map_chars (f : ascii → ascii) (s : string) : string :=
  match s with
  | EmptyString => EmptyString
  | String c r => String (f c) (map_chars f r)
  end.

(** [s.replace(' ', '_')], character by character. *)
Definition space_to_underscore (c : ascii) : ascii :=
  if bool_decide (c = " "%char) then "_"%char else c.

Definition safe_name (contract : string) : string :=
  let safe_name := map_chars keep_or_underscore contract in
  String.substring 0 100 (map_chars space_to_underscore safe_name).

(** What the two replacements do to one character, and the characters they
    leave alone. *)
Definition clean (c : ascii) : ascii := space_to_underscore (keep_or_underscore c).
Definition is_safe (c : ascii) : bool :=
  isalnum c || bool_decide (c = "-"%char) || bool_decide (c = "_"%char).

(** ** Search of a contract by name (example_plot.py, search_contracts) *)

Definition upper_ascii (c : ascii) : ascii :=
  let n := nat_of_ascii c in
  if ((97 <=? n) && (n <=? 122))%nat then ascii_of_nat (n - 32) else c.

(** [s.upper()] on ASCII letters; the bytes of a character beyond ASCII are
    left as they are. *)
Definition upper (s : string) : string := map_chars upper_ascii s.

Definition aliases : list (string * string) :=
  [("CAD", "CANADIAN DOLLAR"); ("EUR", "EURO FX"); ("GBP", "BRITISH POUND");
   ("JPY", "JAPANESE YEN"); ("CHF", "SWISS FRANC"); ("AUD", "AUSTRALIAN DOLLAR");
   ("NZD", "NEW ZEALAND DOLLAR"); ("MXN", "MEXICAN PESO"); ("BRL", "BRAZILIAN REAL");
   ("CRUDE", "CRUDE OIL"); ("OIL", "CRUDE OIL"); ("WTI", "CRUDE OIL, LIGHT SWEET");
   ("NATGAS", "NATURAL GAS"); ("GAS", "NATURAL GAS"); ("CORN", "CORN");
   ("WHEAT", "WHEAT"); ("SOYBEAN", "SOYBEAN"); ("SPX", "S&P 500"); ("SP500", "S&P 500");
   ("ES", "E-MINI S&P 500"); ("NQ", "NASDAQ"); ("NASDAQ", "NASDAQ");
   ("BITCOIN", "BITCOIN"); ("BTC", "BITCOIN"); ("ETHER", "ETHER"); ("ETH", "ETHER")].

(** [d[key]] when [key in d], for a dictionary given by its items. *)
Definition dict_get {A} (key : string) (d : list (string * A)) : option A :=
  snd <$> List.find (λ item, bool_decide (item.1 = key)) d.

Definition search_contracts (contracts : list string) (search_term : string) : list string :=
  let search_term := upper search_term in
  let search_term := match dict_get search_term aliases with
                     | Some full_name => full_name
                     | None => search_term
                     end in
  filter (λ c, contains search_term (upper c) = true) contracts.

(** ** The ticks of the date axis (plot_trader_positions) *)

(** [[int(i * len(plot_df) / n_ticks) for i in range(n_ticks)]] with
    [n_ticks = min(15, len(plot_df))], when [n_ticks > 0].  The quotient of
    Python is a float; it is exact, and its integer part is the quotient
    below, for every table of fewer than 2^49 rows. *)
Definition tick_indices (len : Z) : list Z :=
  let n_ticks := Z.min 15 len in
  if 0 <? n_ticks then map (λ i, (i * len) `div` n_ticks) (seqZ 0 n_ticks) else [].

(** ** Loading and fetching (load_from_parquet, fetch_all_data)

    [self.dataframes] is the list of its items, in insertion order.  The
    file system, the parquet reader, the CFTC download, the conversion of a
    column to dates and the minimum and maximum of a column are parameters;
    what they raise is a value of a type of its own. *)

Definition REPORT_TYPES : list string :=
  ["legacy_fut"; "legacy_futopt"; "supplemental_futopt"; "disaggregated_fut";
   "disaggregated_futopt"; "traders_in_financial_futures_fut";
   "traders_in_financial_futures_futopt"].

(** [d[key] = v]: the value of an existing key is replaced where it stands,
    a new key goes to the end. *)
Fixpoint dict_set {A} (key : string) (v : A) (d : list (string * A)) : list (string * A) :=
  match d with
  | [] => [(key, v)]
  | item :: d' =>
      if bool_decide (item.1 = key) then (key, v) :: d' else item :: dict_set key v d'
  end.

(** What [load_from_parquet] returns: one table, or [self.dataframes]. *)
Inductive Loaded :=
| LoadedTable (df : Table)
| LoadedAll (dataframes : list (string * Table)).

(** What the body of the [try] of [fetch_all_data] can raise: an exception
    of a call outside, or [date_cols[0]] on an empty list. *)
Inductive FetchError (E : Type) :=
| Outside (e : E)
| NoFirstDateColumn.
Arguments Outside {E} e.
Arguments NoFirstDateColumn {E}.

Inductive FetchMsg (E : Type) :=
| FetchingAll
| Fetching (report_type : string)
| Fetched (report_type : string) (records : nat) (first last : Cell)
| NoDataAvailable (report_type : string)
| ErrorFetching (report_type : string) (e : FetchError E).
Arguments FetchingAll {E}.
Arguments Fetching {E} report_type.
Arguments Fetched {E} report_type records first last.
Arguments NoDataAvailable {E} report_type.
Arguments ErrorFetching {E} report_type e.

Section Storage.

Variable E : Type.

(** [self.data_dir / "by_report_type" / f"{report_type}.parquet"] *)
Variable report_path : string → string.
(** [filepath.exists()] *)
Variable file_exists : string → bool.
(** [pd.read_parquet(filepath)] *)
Variable read_parquet : string → E + Table.

(** One iteration of [for report_type in self.REPORT_TYPES]; after an
    exception nothing runs any more. *)
Definition load_step (st : list (string * Table) * option E) (report_type : string)
    : list (string * Table) * option E :=
  match st.2 with
  | Some _ => st
  | None =>
      let filepath := report_path report_type in
      if file_exists filepath then
        match read_parquet filepath with
        | inr df => (dict_set report_type df st.1, None)
        | inl e => (st.1, Some e)
        end
      else st
  end.

(** [load_from_parquet]: [self.dataframes] after the call, and what the call
    returns or raises. *)
Definition load_from_parquet (report_type : option string)
    (dataframes : list (string * Table)) : list (string * Table) * (E + Loaded) :=
  match report_type with
  | Some (String _ _ as report_type) =>
      (dataframes,
       match read_parquet (report_path report_type) with
       | inr df => inr (LoadedTable df)
       | inl e => inl e
       end)
  | _ =>
      let st := fold_left load_step REPORT_TYPES (dataframes, None) in
      (st.1, match st.2 with Some e => inl e | None => inr (LoadedAll st.1) end)
  end.

(** [cot.cot_all(cot_report_type=report_type)]; [None] is Python's. *)
Variable cot_all : string → E + option Table.
(** [pd.to_datetime] on a whole column: the converted values, [None] when it
    raises. *)
Variable to_datetime_column : list Cell → option (list Cell).
(** [series.min()] and [series.max()], as the line printed shows them. *)
Variable min_max : list Cell → E + (Cell * Cell).

(** [[col for col in df.columns if 'date' in col.lower()]] *)
Definition date_columns (cols : list string) : list string :=
  filter (λ col, contains "date" (lower col) = true) cols.

(** [df[col] = values] for a column of the table: the values go to the rows
    in their order. *)
Definition set_column (col : string) (values : list Cell) (df : Table) : Table :=
  mkTable (columns df) (zip_with (λ r v, <[col := v]> r) (rows df) values).

(** [try: df[date_col] = pd.to_datetime(df[date_col])] / [except: pass] *)
Definition try_to_datetime (df : Table) (date_col : string) : Table :=
  match to_datetime_column (column_values date_col df) with
  | Some values => set_column date_col values df
  | None => df
  end.

(** One iteration of [for report_type in self.REPORT_TYPES], with its [try]. *)
Definition fetch_report (st : list (FetchMsg E) * list (string * Table))
    (report_type : string) : list (FetchMsg E) * list (string * Table) :=
  let log := st.1 ++ [Fetching report_type] in
  match cot_all report_type with
  | inl e => (log ++ [ErrorFetching report_type (Outside e)], st.2)
  | inr None => (log ++ [NoDataAvailable report_type], st.2)
  | inr (Some df) =>
      if empty df then (log ++ [NoDataAvailable report_type], st.2)
      else
        let date_cols := date_columns (columns df) in
        let df := fold_left try_to_datetime date_cols df in
        let dataframes := dict_set report_type df st.2 in
        match date_cols with
        | [] => (log ++ [ErrorFetching report_type NoFirstDateColumn], dataframes)
        | first_date_col :: _ =>
            match min_max (column_values first_date_col df) with
            | inr (first, last) =>
                (log ++ [Fetched report_type (length (rows df)) first last], dataframes)
            | inl e => (log ++ [ErrorFetching report_type (Outside e)], dataframes)
            end
        end
  end.

Definition fetch_all_data (dataframes : list (string * Table))
    : list (FetchMsg E) * list (string * Table) :=
  fold_left fetch_report REPORT_TYPES ([FetchingAll], dataframes).

(** What a report type leaves in [self.dataframes], when it leaves a table. *)
Definition fetched_table (report_type : string) : option Table :=
  match cot_all report_type with
  | inr (Some df) =>
      if empty df then None
      else Some (fold_left try_to_datetime (date_columns (columns df)) df)
  | _ => None
  end.

End Storage.

(** * Properties *)

(** ** The resolver *)

Section Resolver.

Implicit Types (st : Resolved) (col : string) (c : Category) (s : Side).

Lemma get_set_eq c s col st : get c s (set c s col st) = Some col.
Proof. by destruct c, s. Qed.

Lemma get_set_ne c s c' s' col st :
  (c, s) ≠ (c', s') → get c' s' (set c s col st) = get c' s' st.
Proof. destruct c, s, c', s'; simpl; congruence. Qed.

Lemma pass1_step_classify st col :
  pass1_step st col = match classify1 col with
                      | Some (c, s) => set c s col st
                      | None => st
                      end.
Proof.
  unfold pass1_step, classify1, category_of, has_side.
  destruct (contains "positions" (lower col)); [|done].
  destruct (contains "commercial" (lower col) && negb (contains "noncommercial" (lower col))).
  { by repeat case_match. }
  destruct (contains "noncommercial" (lower col) && negb (contains "spreading" (lower col))).
  { by repeat case_match. }
  destruct (contains "nonreportable" (lower col)); by repeat case_match.
Qed.

Lemma pass2_step_role st col :
  pass2_step st col =
    let col_lower := lower col in
    if contains "trader" col_lower then
      match category_of col_lower with
      | Some c =>
          if has_side Long col_lower && negb (truthy (get c Long st)) then set c Long col st
          else if has_side Short col_lower && negb (truthy (get c Short st))
               then set c Short col st
          else st
      | None => st
      end
    else st.
Proof.
  unfold pass2_step, category_of, has_side. cbv zeta.
  destruct (contains "trader" (lower col)); [|done].
  destruct (contains "commercial" (lower col) && negb (contains "noncommercial" (lower col)));
    [done|].
  destruct (contains "noncommercial" (lower col) && negb (contains "spreading" (lower col)));
    [done|].
  by destruct (contains "nonreportable" (lower col)).
Qed.

Lemma classify1_nonempty col c s : classify1 col = Some (c, s) → col ≠ "".
Proof. by intros H ->. Qed.

Lemma classify1_all col c s :
  classify1 col = Some (c, s) → contains "(all)" (lower col) = true.
Proof.
  unfold classify1, has_side. intros H.
  repeat case_match; simplify_eq;
    match goal with H : _ && _ = true |- _ => by apply andb_prop in H as [_ ?] end.
Qed.

Lemma candidate2_nonempty c s col : candidate2 c s col = true → col ≠ "".
Proof. by intros H ->. Qed.

Lemma candidate2_all c s col :
  candidate2 c s col = true → contains "(all)" (lower col) = true.
Proof.
  unfold candidate2. cbv zeta. intros H. apply andb_prop in H as [_ H].
  destruct s; simpl in H; by apply andb_prop in H as [_ ?].
Qed.

Lemma truthy_Some col : col ≠ "" → truthy (Some col) = true.
Proof. by destruct col. Qed.

Lemma truthy_true o : truthy o = true → ∃ col, o = Some col ∧ col ≠ "".
Proof. destruct o as [[|a col]|]; [done| |done]. intros _. by eexists. Qed.

(** *** First loop: the last match stays *)

Lemma pass1_fold_none cols st c s :
  (∀ col, col ∈ cols → classify1 col ≠ Some (c, s)) →
  get c s (fold_left pass1_step cols st) = get c s st.
Proof.
  revert st. induction cols as [|col cols IH]; intros st H; [done|]. simpl.
  rewrite IH by (intros ??; apply H; by right).
  rewrite pass1_step_classify.
  destruct (classify1 col) as [[c' s']|] eqn:E; [|done].
  apply get_set_ne. intros [= -> ->]. eapply H; [by left|done].
Qed.

Lemma pass1_fold_last pre col post st c s :
  classify1 col = Some (c, s) →
  (∀ col', col' ∈ post → classify1 col' ≠ Some (c, s)) →
  get c s (fold_left pass1_step (pre ++ col :: post) st) = Some col.
Proof.
  intros Hc Hpost. rewrite fold_left_app. simpl.
  rewrite pass1_fold_none by done.
  rewrite pass1_step_classify, Hc. apply get_set_eq.
Qed.

(** A role filled by the first loop holds a column of the table that the
    first loop classifies under this role. *)
Lemma pass1_fold_Some cols st c s x :
  get c s (fold_left pass1_step cols st) = Some x →
  get c s st = Some x ∨ (x ∈ cols ∧ classify1 x = Some (c, s)).
Proof.
  revert st. induction cols as [|col cols IH]; intros st H; [by left|].
  simpl in H. apply IH in H as [H|[??]]; [|right; split; [by right|done]].
  rewrite pass1_step_classify in H.
  destruct (classify1 col) as [[c' s']|] eqn:E; [|by left].
  destruct (decide ((c', s') = (c, s))) as [[= -> ->]|Hne].
  - rewrite get_set_eq in H. simplify_eq. right. split; [by left|done].
  - rewrite get_set_ne in H by done. by left.
Qed.

Lemma pass1_Some cols c s x :
  get c s (pass1 cols) = Some x → x ∈ cols ∧ classify1 x = Some (c, s).
Proof.
  intros H. apply pass1_fold_Some in H as [H|H]; [|done]. by destruct c, s.
Qed.

(** *** Second loop: a filled role stays, a free role takes the first match *)

Lemma pass2_step_keeps st col c s :
  truthy (get c s st) = true → get c s (pass2_step st col) = get c s st.
Proof.
  intros Ht. rewrite pass2_step_role. cbv zeta.
  destruct (contains "trader" (lower col)); [|done].
  destruct (category_of (lower col)) as [c'|]; [|done].
  destruct (has_side Long (lower col) && negb (truthy (get c' Long st))) eqn:E1.
  { apply get_set_ne. intros [= -> <-]. rewrite Ht in E1.
    by rewrite andb_false_r in E1. }
  destruct (has_side Short (lower col) && negb (truthy (get c' Short st))) eqn:E2; [|done].
  apply get_set_ne. intros [= -> <-]. rewrite Ht in E2. by rewrite andb_false_r in E2.
Qed.

Lemma pass2_loop_keeps cols st c s :
  truthy (get c s st) = true → get c s (pass2_loop cols st) = get c s st.
Proof.
  unfold pass2_loop. revert st. induction cols as [|col cols IH]; intros st Ht; [done|].
  simpl. rewrite IH; rewrite pass2_step_keeps; done.
Qed.

Lemma pass2_step_other st col c s :
  candidate2 c s col = false → get c s (pass2_step st col) = get c s st.
Proof.
  intros Hn. rewrite pass2_step_role. unfold candidate2 in Hn. cbv zeta in *.
  destruct (contains "trader" (lower col)); [|done].
  destruct (category_of (lower col)) as [c'|]; [|done].
  simpl in Hn.
  destruct (has_side Long (lower col) && negb (truthy (get c' Long st))) eqn:E1.
  { apply get_set_ne. intros [= -> <-]. rewrite bool_decide_eq_true_2 in Hn by done.
    rewrite andb_true_l in Hn. by rewrite Hn in E1. }
  destruct (has_side Short (lower col) && negb (truthy (get c' Short st))) eqn:E2; [|done].
  apply get_set_ne. intros [= -> <-]. rewrite bool_decide_eq_true_2 in Hn by done.
  rewrite andb_true_l in Hn. by rewrite Hn in E2.
Qed.

(** A role filled after the second loop was filled before, or holds a
    "traders" column of the table. *)
Lemma pass2_loop_Some cols st c s x :
  get c s (pass2_loop cols st) = Some x →
  get c s st = Some x ∨ (x ∈ cols ∧ candidate2 c s x = true).
Proof.
  unfold pass2_loop. revert st. induction cols as [|col cols IH]; intros st H; [by left|].
  simpl in H. apply IH in H as [H|[??]]; [|right; split; [by right|done]].
  destruct (candidate2 c s col) eqn:Ec.
  - destruct (decide (x = col)) as [->|Hne]; [right; split; [by left|done]|].
    left. rewrite pass2_step_role in H. cbv zeta in H.
    repeat case_match; try done.
    + destruct (decide ((c0, Long) = (c, s))) as [[= -> <-]|?].
      * rewrite get_set_eq in H. congruence.
      * by rewrite get_set_ne in H.
    + destruct (decide ((c0, Short) = (c, s))) as [[= -> <-]|?].
      * rewrite get_set_eq in H. congruence.
      * by rewrite get_set_ne in H.
  - left. by rewrite pass2_step_other in H.
Qed.

(** *** The two loops together *)

Lemma pass1_truthy cols c s x : get c s (pass1 cols) = Some x → truthy (Some x) = true.
Proof.
  intros H. apply pass1_Some in H as [_ H]. by apply truthy_Some, (classify1_nonempty _ c s).
Qed.

Lemma resolve_keeps_pass1 cols c s x :
  get c s (pass1 cols) = Some x → get c s (resolve_positions cols) = Some x.
Proof.
  intros H. unfold resolve_positions. cbv zeta. destruct (pass2_runs (pass1 cols)); [|done].
  rewrite pass2_loop_keeps; [done|]. rewrite H. by eapply pass1_truthy.
Qed.

(** Every resolved column is a column of the table whose lower-cased name
    holds "(all)"; hence it is none of the three net columns. *)
Lemma resolve_Some cols c s x :
  get c s (resolve_positions cols) = Some x →
  x ∈ cols ∧ x ≠ "" ∧ contains "(all)" (lower x) = true.
Proof.
  unfold resolve_positions. cbv zeta. intros H.
  assert (get c s (pass1 cols) = Some x ∨ (x ∈ cols ∧ candidate2 c s x = true)) as [H1|[??]].
  { destruct (pass2_runs (pass1 cols)); [by apply pass2_loop_Some|by left]. }
  - apply pass1_Some in H1 as [? H1]. split_and!; [done|..].
    + by eapply classify1_nonempty.
    + by eapply classify1_all.
  - split_and!; [done|..].
    + by eapply candidate2_nonempty.
    + by eapply candidate2_all.
Qed.

Lemma resolve_not_net cols c s x :
  get c s (resolve_positions cols) = Some x → x ∉ net_names.
Proof.
  intros H%resolve_Some. destruct H as (_ & _ & H). intros Hin.
  unfold net_names in Hin. set_unfold.
  destruct Hin as [->|[->|[->|[]]]]; by vm_compute in H.
Qed.

(** *** The two loops, role by role *)

Lemma last_filter_cons (P : string → Prop) `{!∀ x, Decision (P x)} col cols :
  last (filter P (col :: cols))
  = match last (filter P cols) with
    | Some x => Some x
    | None => if decide (P col) then Some col else None
    end.
Proof.
  rewrite filter_cons. destruct (decide (P col)); [|by destruct (last _)].
  destruct (filter P cols) as [|y l] eqn:E; [done|].
  rewrite last_cons. by destruct (last (y :: l)).
Qed.

Lemma pass1_fold_last_match cols st c s :
  get c s (fold_left pass1_step cols st)
  = match last_match1 c s cols with
    | Some x => Some x
    | None => get c s st
    end.
Proof.
  unfold last_match1. revert st. induction cols as [|col cols IH]; intros st; [done|].
  simpl. rewrite IH, last_filter_cons.
  destruct (last (filter _ cols)); [done|].
  rewrite pass1_step_classify.
  destruct (decide (classify1 col = Some (c, s))) as [->|Hne]; [apply get_set_eq|].
  destruct (classify1 col) as [[c' s']|]; [|done].
  apply get_set_ne. congruence.
Qed.

Lemma pass1_last_match cols c s : get c s (pass1 cols) = last_match1 c s cols.
Proof.
  unfold pass1. rewrite pass1_fold_last_match.
  destruct (last_match1 c s cols); [done|]. by destruct c, s.
Qed.

Lemma last_match1_Some cols c s x :
  last_match1 c s cols = Some x → x ∈ cols ∧ classify1 x = Some (c, s).
Proof. rewrite <-pass1_last_match. apply pass1_Some. Qed.

Lemma last_match1_None cols c s :
  last_match1 c s cols = None ↔ ∀ col, col ∈ cols → classify1 col ≠ Some (c, s).
Proof.
  unfold last_match1. rewrite last_None. split.
  - intros H col Hin Hc. by eapply (filter_nil_not_elem_of _ _ col H).
  - intros H. destruct (filter _ cols) as [|x l] eqn:E; [done|].
    assert (x ∈ filter (λ col, classify1 col = Some (c, s)) cols) as Hx
      by (rewrite E; by left).
    apply list_elem_of_filter in Hx as [Hc Hin]. by apply H in Hin.
Qed.

Lemma last_match1_is_Some cols c s :
  is_Some (last_match1 c s cols) ↔ ∃ col, col ∈ cols ∧ classify1 col = Some (c, s).
Proof.
  split.
  - intros [x Hx]. exists x. by apply last_match1_Some.
  - intros (col & Hin & Hc). destruct (last_match1 c s cols) eqn:E; [done|].
    rewrite last_match1_None in E. by apply E in Hin.
Qed.

Lemma pass1_truthy_last cols c s :
  truthy (get c s (pass1 cols)) = bool_decide (is_Some (last_match1 c s cols)).
Proof.
  rewrite pass1_last_match. destruct (last_match1 c s cols) as [x|] eqn:E.
  - rewrite bool_decide_eq_true_2 by done. apply truthy_Some.
    apply last_match1_Some in E as [_ E]. by eapply classify1_nonempty.
  - rewrite bool_decide_eq_false_2; [done|]. by intros [??].
Qed.

(** The guard of the second loop, in terms of the matches of the first. *)
Lemma pass2_runs_last_match cols :
  pass2_runs (pass1 cols) = true
  ↔ last_match1 NonCommercial Long cols = None
    ∨ last_match1 NonCommercial Short cols = None.
Proof.
  unfold pass2_runs.
  change (noncomm_long (pass1 cols)) with (get NonCommercial Long (pass1 cols)).
  change (noncomm_short (pass1 cols)) with (get NonCommercial Short (pass1 cols)).
  rewrite !pass1_truthy_last, orb_true_iff, !negb_true_iff, !bool_decide_eq_false.
  by rewrite <-!eq_None_not_Some.
Qed.

Lemma pass2_step_takes2 st col c s :
  truthy (get c s st) = false →
  takes2 c s (truthy (get c Long st)) col = true →
  get c s (pass2_step st col) = Some col.
Proof.
  unfold takes2, candidate2. cbv zeta. intros Hf Hq.
  rewrite pass2_step_role. cbv zeta.
  apply andb_prop in Hq as [Hq Hside]. repeat (apply andb_prop in Hq as [Hq ?]).
  rewrite Hq. apply bool_decide_eq_true_1 in H0. rewrite H0.
  destruct s.
  - rewrite H, Hf. simpl. apply get_set_eq.
  - destruct (has_side Long (lower col)) eqn:El.
    + simpl in Hside. rewrite Hside. cbn [negb andb]. rewrite H, Hf. apply get_set_eq.
    + cbn [negb andb]. rewrite H, Hf. apply get_set_eq.
Qed.

Lemma pass2_step_leaves st col c s :
  truthy (get c s st) = false →
  takes2 c s (truthy (get c Long st)) col = false →
  get c s (pass2_step st col) = get c s st.
Proof.
  intros Hf Hq. destruct (candidate2 c s col) eqn:Ec; [|by apply pass2_step_other].
  unfold takes2 in Hq. rewrite Ec, andb_true_l in Hq.
  destruct s; [done|]. apply orb_false_iff in Hq as [Hl Ht].
  apply negb_false_iff in Hl.
  unfold candidate2 in Ec. cbv zeta in Ec.
  repeat (apply andb_prop in Ec as [Ec ?]). apply bool_decide_eq_true_1 in H0.
  rewrite pass2_step_role. cbv zeta. rewrite Ec, H0, Hl, Ht. cbn [negb andb].
  by apply get_set_ne.
Qed.

Lemma pass2_step_long st col c :
  truthy (get c Long (pass2_step st col))
  = truthy (get c Long st) || candidate2 c Long col.
Proof.
  destruct (truthy (get c Long st)) eqn:Et.
  - by rewrite pass2_step_keeps.
  - simpl. destruct (candidate2 c Long col) eqn:Ec.
    + rewrite pass2_step_takes2; [|done|].
      * by apply truthy_Some, (candidate2_nonempty c Long).
      * unfold takes2. by rewrite Ec.
    + by rewrite pass2_step_other.
Qed.

(** The second loop on a role that is free when the loop starts. *)
Lemma pass2_loop_first_taken cols st c s :
  truthy (get c s st) = false →
  get c s (pass2_loop cols st)
  = match first_taken2 c s (truthy (get c Long st)) cols with
    | Some x => Some x
    | None => get c s st
    end.
Proof.
  unfold pass2_loop. revert st. induction cols as [|col cols IH]; intros st Hf; [done|].
  simpl. destruct (takes2 c s (truthy (get c Long st)) col) eqn:Et.
  - change (fold_left pass2_step cols ?x) with (pass2_loop cols x).
    rewrite pass2_loop_keeps; rewrite pass2_step_takes2 by done; [done|].
    apply truthy_Some, (candidate2_nonempty c s).
    unfold takes2 in Et. by apply andb_prop in Et as [? _].
  - rewrite IH.
    + by rewrite pass2_step_long, pass2_step_leaves.
    + by rewrite pass2_step_leaves.
Qed.

Lemma first_taken2_Some c s b cols x :
  first_taken2 c s b cols = Some x → x ∈ cols ∧ candidate2 c s x = true.
Proof.
  revert b. induction cols as [|col cols IH]; intros b H; [done|]. simpl in H.
  destruct (takes2 c s b col) eqn:Et.
  - simplify_eq. split; [by left|]. unfold takes2 in Et. by apply andb_prop in Et as [? _].
  - apply IH in H as [??]. split; [by right|done].
Qed.

Lemma first_taken2_qualifies c s b cols col :
  col ∈ cols → qualifies2 c s col = true → is_Some (first_taken2 c s b cols).
Proof.
  intros Hin Hq. revert b. induction cols as [|col' cols IH]; intros b.
  { by apply elem_of_nil in Hin. }
  simpl. destruct (takes2 c s b col') eqn:Et; [done|].
  apply elem_of_cons in Hin as [->|Hin]; [|by apply IH].
  unfold qualifies2 in Hq. unfold takes2 in Et.
  apply andb_prop in Hq as [Hc Hs]. rewrite Hc in Et.
  destruct s; [done|]. simpl in *. by rewrite Hs in Et.
Qed.

End Resolver.

(** *** Order of the matches (claim C2) *)

(** C2, as stated, fails in the first loop: both columns pass the
    Commercial-Long rule of the first loop, and the resolver keeps the second
    one, not the first. *)
Lemma C2_first_match_refuted :
  classify1 "Commercial Positions-Long (All)" = Some (Commercial, Long)
  ∧ classify1 "Commercial Positions-Long (All) - revised" = Some (Commercial, Long)
  ∧ comm_long (resolve_positions two_commercial_long)
    = Some "Commercial Positions-Long (All) - revised"
  ∧ comm_long (resolve_positions two_commercial_long)
    ≠ Some "Commercial Positions-Long (All)".
Proof. by vm_compute. Qed.

(** C2, amended: a role with a match in the first loop holds the last column
    of the table that the first loop gives to it (each later match
    overwrites the earlier one).  When the first loop leaves Speculator-Long
    or Speculator-Short free, the second loop runs, and a role with no match
    in the first loop then holds the first column of the table that the
    second loop gives to it, [first_taken2], or nothing when there is none:
    for Long, the first "trader" column of the category with "long" and
    "(all)"; for Short, the first "trader" column of the category with
    "short" and "(all)" that fails the [long] test or is examined when the
    Long role of the category is resolved already, by the first loop or by
    an earlier column of the second. *)
Theorem C2_match_order (cols : list string) (c : Category) (s : Side) :
  (∀ x, last_match1 c s cols = Some x → get c s (resolve_positions cols) = Some x)
  ∧ (last_match1 c s cols = None →
     last_match1 NonCommercial Long cols = None
     ∨ last_match1 NonCommercial Short cols = None →
     get c s (resolve_positions cols)
     = first_taken2 c s (bool_decide (is_Some (last_match1 c Long cols))) cols).
Proof.
  split.
  - intros x Hx. apply resolve_keeps_pass1. by rewrite pass1_last_match.
  - intros Hnone Hruns%pass2_runs_last_match.
    unfold resolve_positions. cbv zeta. rewrite Hruns.
    rewrite pass2_loop_first_taken by by rewrite pass1_last_match, Hnone.
    rewrite pass1_truthy_last, pass1_last_match, Hnone. by destruct (first_taken2 _ _ _ _).
Qed.

Lemma C2_match_order_witness :
  get Commercial Long (resolve_positions two_commercial_long)
    = Some "Commercial Positions-Long (All) - revised"
  ∧ get Commercial Short
      (resolve_positions ["Traders-Commercial-Long (All)";
                          "Traders Commercial Long Short (All)";
                          "Traders-Commercial-Short (All)"])
    = Some "Traders Commercial Long Short (All)".
Proof.
  split.
  - apply (proj1 (C2_match_order two_commercial_long Commercial Long)). reflexivity.
  - apply (proj2 (C2_match_order ["Traders-Commercial-Long (All)";
                                  "Traders Commercial Long Short (All)";
                                  "Traders-Commercial-Short (All)"] Commercial Short)).
    + reflexivity.
    + left. reflexivity.
Defined.

(** *** The second loop as a fallback (claim C3) *)

(** C3, as stated, fails: the second loop is guarded by the Speculator pair
    alone.  Here the first loop fills both Speculator roles, no "positions"
    column exists for Commercial-Long, a valid "traders" column does, and the
    role stays unresolved. *)
Lemma C3_fallback_refuted :
  get Commercial Long (pass1 speculator_positions_commercial_traders) = None
  ∧ qualifies2 Commercial Long "Traders-Commercial-Long (All)" = true
  ∧ pass2_runs (pass1 speculator_positions_commercial_traders) = false
  ∧ get Commercial Long (resolve_positions speculator_positions_commercial_traders) = None.
Proof. by vm_compute. Qed.

(** C3, amended: a role with a "positions" match holds a "positions" column
    of the table, whatever "traders" columns exist.  A role with no
    "positions" match stays unresolved, whatever "traders" columns exist,
    when Speculator-Long and Speculator-Short both have a "positions" match:
    the second loop does not run.  When one of these two has none, the
    second loop runs, and a role with no "positions" match but a "traders"
    column valid for it holds a "traders" column of the table for its
    category and side. *)
Theorem C3_fallback (cols : list string) (c : Category) (s : Side) :
  ((∃ col, col ∈ cols ∧ classify1 col = Some (c, s)) →
   ∃ x, get c s (resolve_positions cols) = Some x
        ∧ x ∈ cols ∧ classify1 x = Some (c, s))
  ∧ ((∀ col, col ∈ cols → classify1 col ≠ Some (c, s)) →
     (∃ x, x ∈ cols ∧ classify1 x = Some (NonCommercial, Long)) →
     (∃ y, y ∈ cols ∧ classify1 y = Some (NonCommercial, Short)) →
     get c s (resolve_positions cols) = None)
  ∧ ((∀ col, col ∈ cols → classify1 col ≠ Some (c, s)) →
     (∀ x, x ∈ cols → classify1 x ≠ Some (NonCommercial, Long))
     ∨ (∀ y, y ∈ cols → classify1 y ≠ Some (NonCommercial, Short)) →
     (∃ col, col ∈ cols ∧ qualifies2 c s col = true) →
     ∃ x, get c s (resolve_positions cols) = Some x
          ∧ x ∈ cols ∧ candidate2 c s x = true).
Proof.
  split_and!.
  - intros [x Hx]%last_match1_is_Some. exists x. split.
    + apply resolve_keeps_pass1. by rewrite pass1_last_match.
    + by apply last_match1_Some.
  - intros Hnone%last_match1_None [xl Hl]%last_match1_is_Some [xs Hs]%last_match1_is_Some.
    unfold resolve_positions. cbv zeta.
    destruct (pass2_runs (pass1 cols)) eqn:Hruns; [|by rewrite pass1_last_match].
    apply pass2_runs_last_match in Hruns as [?|?]; congruence.
  - intros Hnone%last_match1_None Hguard (col & Hin & Hq).
    assert (pass2_runs (pass1 cols) = true) as Hruns.
    { apply pass2_runs_last_match. rewrite !last_match1_None. done. }
    unfold resolve_positions. cbv zeta. rewrite Hruns.
    rewrite pass2_loop_first_taken by by rewrite pass1_last_match, Hnone.
    destruct (first_taken2_qualifies c s (truthy (get c Long (pass1 cols))) cols col Hin Hq)
      as [x Hx].
    rewrite Hx. exists x. split; [done|]. by eapply first_taken2_Some.
Qed.

Lemma C3_fallback_witness :
  (∃ x, get NonCommercial Long (resolve_positions speculator_positions_commercial_traders)
        = Some x
        ∧ x ∈ speculator_positions_commercial_traders
        ∧ classify1 x = Some (NonCommercial, Long))
  ∧ get Commercial Long (resolve_positions speculator_positions_commercial_traders) = None
  ∧ ∃ x, get Commercial Long
           (resolve_positions ["Traders-Commercial-Long (All)";
                               "Noncommercial Positions-Long (All)"]) = Some x
         ∧ x ∈ ["Traders-Commercial-Long (All)"; "Noncommercial Positions-Long (All)"]
         ∧ candidate2 Commercial Long x = true.
Proof.
  split_and!.
  - apply (proj1 (C3_fallback speculator_positions_commercial_traders NonCommercial Long)).
    exists "Noncommercial Positions-Long (All)". split; [by left|reflexivity].
  - apply (proj1 (proj2 (C3_fallback speculator_positions_commercial_traders
                           Commercial Long))).
    + intros col H. unfold speculator_positions_commercial_traders in H. set_unfold.
      destruct H as [->|[->|[->|[->|[]]]]]; by vm_compute.
    + exists "Noncommercial Positions-Long (All)". split; [by left|reflexivity].
    + exists "Noncommercial Positions-Short (All)". split; [by right; left|reflexivity].
  - apply (proj2 (proj2 (C3_fallback ["Traders-Commercial-Long (All)";
                                      "Noncommercial Positions-Long (All)"]
                           Commercial Long))).
    + intros col H. set_unfold. destruct H as [->|[->|[]]]; by vm_compute.
    + right. intros y H. set_unfold. destruct H as [->|[->|[]]]; by vm_compute.
    + exists "Traders-Commercial-Long (All)". split; [by left|reflexivity].
Defined.

(** ** Net-position derivation *)

(** *** The arithmetic of the two dtypes *)

Lemma round53_small z : Z.abs z ≤ 2 ^ 53 → round53 z = z.
Proof.
  intros Hz. unfold round53. cbv zeta.
  destruct (decide (Z.abs z = 2 ^ 53)) as [He|Hne].
  - destruct (Z.abs_eq_or_opp z) as [E|E]; rewrite E in He.
    + by subst z.
    + assert (z = - 2 ^ 53) as -> by lia. done.
  - case_match eqn:Hb; [done|]. apply Z.leb_gt in Hb.
    destruct (decide (z = 0)) as [->|Hnz]; [done|].
    assert (Z.log2 (Z.abs z) < 53); [|lia].
    apply Z.log2_lt_pow2; lia.
Qed.

Lemma wrap64_small z : - 2 ^ 63 ≤ z < 2 ^ 63 → wrap64 z = z.
Proof. intros Hz. unfold wrap64. rewrite Z.mod_small; lia. Qed.

Section Derivation.

Variable parse_number : string → option Z.

Local Abbreviation row_step := (derive_row_category parse_number).
Local Abbreviation row_all := (derive_row parse_number).
Local Abbreviation tab_all := (derive parse_number).
Local Abbreviation branch := (legacy_branch parse_number).
Local Abbreviation ok := (plain parse_number).

Implicit Types (r : gmap string Cell) (t : Table) (rs : Resolved) (fl : bool * bool).

Lemma cell_insert_eq r k v : cell (<[k := v]> r) k = v.
Proof. unfold cell. by rewrite lookup_insert_eq. Qed.

Lemma cell_insert_ne r k k' v : k ≠ k' → cell (<[k := v]> r) k' = cell r k'.
Proof. intros. unfold cell. by rewrite lookup_insert_ne. Qed.

(** *** Plain cells *)

Lemma plain_small c : ok c → Z.abs (number_of c) ≤ 2 ^ 52.
Proof.
  destruct c as [s|z|]; simpl; [|done|done].
  intros [_ H]. destruct (Parsers.decimal_number s); simpl; [by destruct H|done].
Qed.

Lemma to_numeric_plain b c : ok c → to_numeric parse_number b c = number_of c.
Proof.
  unfold to_numeric. destruct c as [s|z|]; simpl; [| |done].
  - intros [_ H]. destruct (Parsers.decimal_number s) as [z|]; simpl.
    + destruct H as [-> H]. destruct b; [done|]. apply round53_small. lia.
    + by destruct H as [-> _].
  - intros H. destruct b; [done|]. apply round53_small. lia.
Qed.

Lemma plain_coerced b c : ok c → ok (CInt (to_numeric parse_number b c)).
Proof. intros H. rewrite to_numeric_plain by done. simpl. by apply plain_small. Qed.

Lemma cell_sub_small b x y :
  Z.abs x ≤ 2 ^ 52 → Z.abs y ≤ 2 ^ 52 → cell_sub b (CInt x) (CInt y) = CInt (x - y).
Proof.
  intros Hx Hy. simpl. f_equal. destruct b.
  - apply wrap64_small. lia.
  - rewrite (round53_small x), (round53_small y), round53_small; lia.
Qed.

(** *** One block on one row *)

Lemma category_row_incomplete fl long short net r :
  truthy long && truthy short = false → row_step fl long short net r = r.
Proof.
  unfold derive_row_category. intros H.
  destruct long, short; try done. by rewrite H.
Qed.

Lemma category_row_frame fl long short net r k :
  k ≠ net → long ≠ Some k → short ≠ Some k →
  row_step fl long short net r !! k = r !! k.
Proof.
  unfold derive_row_category. intros Hnet Hl Hs.
  destruct long as [l|], short as [s|]; try done.
  destruct (truthy (Some l) && truthy (Some s)); [|done].
  rewrite !lookup_insert_ne; [done|congruence..].
Qed.

(** A plain cell of a coerced column holds its number afterwards. *)
Lemma category_row_source fl l s net r k :
  truthy (Some l) && truthy (Some s) = true → k ≠ net → k = l ∨ k = s → ok (cell r k) →
  row_step fl (Some l) (Some s) net r !! k = Some (CInt (number_of (cell r k))).
Proof.
  unfold derive_row_category. intros -> Hnet Hk Hp.
  rewrite lookup_insert_ne by done.
  destruct (decide (k = s)) as [->|Hne].
  - rewrite lookup_insert_eq. do 2 f_equal.
    destruct (decide (l = s)) as [->|?].
    + rewrite cell_insert_eq.
      rewrite (to_numeric_plain _ (CInt _)) by by apply plain_coerced.
      simpl. by apply to_numeric_plain.
    + rewrite cell_insert_ne by done. by apply to_numeric_plain.
  - destruct Hk as [->|?]; [|done]. rewrite lookup_insert_ne by done.
    rewrite lookup_insert_eq. do 2 f_equal. by apply to_numeric_plain.
Qed.

Lemma category_row_net fl l s net r :
  truthy (Some l) && truthy (Some s) = true → l ≠ net → s ≠ net →
  ok (cell r l) → ok (cell r s) →
  row_step fl (Some l) (Some s) net r !! net
  = Some (CInt (number_of (cell r l) - number_of (cell r s))).
Proof.
  intros Ht Hl Hs Hpl Hps.
  pose proof (category_row_source fl l s net r l Ht Hl (or_introl eq_refl) Hpl) as Hcl.
  pose proof (category_row_source fl l s net r s Ht Hs (or_intror eq_refl) Hps) as Hcs.
  revert Hcl Hcs. unfold derive_row_category. rewrite Ht.
  rewrite lookup_insert_eq, !(lookup_insert_ne _ net) by done.
  set (r' := <[s := _]> _). intros Hcl Hcs. f_equal.
  unfold cell at 1 2. rewrite Hcl, Hcs. simpl.
  apply cell_sub_small; by apply plain_small.
Qed.

(** A plain cell stays plain, with the same number, in every column but the
    net one. *)
Lemma category_row_plain fl long short net r k :
  k ≠ net → ok (cell r k) →
  ok (cell (row_step fl long short net r) k)
  ∧ number_of (cell (row_step fl long short net r) k) = number_of (cell r k).
Proof.
  intros Hnet Hp.
  destruct (truthy long && truthy short) eqn:Ht; [|by rewrite category_row_incomplete].
  destruct long as [l|], short as [s|]; try done.
  destruct (decide (k = l ∨ k = s)) as [Hk|Hk].
  - assert (cell (row_step fl (Some l) (Some s) net r) k = CInt (number_of (cell r k)))
      as -> by (unfold cell at 1; by rewrite category_row_source).
    split; [by apply plain_small|done].
  - assert (cell (row_step fl (Some l) (Some s) net r) k = cell r k) as ->; [|done].
    unfold cell. rewrite category_row_frame; [done..| |]; intros [=]; auto.
Qed.

(** *** The three blocks on a table *)

Lemma derive_category_rows long short net label color (st : Table * list (string * string * string)) :
  ∃ fl, rows (derive_category parse_number long short net label color st).1
        = map (row_step fl long short net) (rows st.1).
Proof.
  unfold derive_category, derive_row_category, coerce_column.
  destruct long as [l|], short as [s|]; try (exists (true, true); by rewrite map_id).
  destruct (truthy (Some l) && truthy (Some s)); [|exists (true, true); by rewrite map_id].
  cbv zeta. eexists (_, _). simpl. by rewrite !map_map.
Qed.

Lemma derive_category_data long short net label color (st : Table * list (string * string * string)) :
  (derive_category parse_number long short net label color st).2
  = st.2 ++ (if truthy long && truthy short then [(label, net, color)] else []).
Proof.
  unfold derive_category.
  destruct long as [l|]; [destruct short as [s|]|].
  - destruct (truthy (Some l) && truthy (Some s)); [done|by rewrite app_nil_r].
  - by rewrite andb_false_r, app_nil_r.
  - by rewrite app_nil_r.
Qed.

Lemma derive_category_incomplete long short net label color st :
  truthy long && truthy short = false →
  derive_category parse_number long short net label color st = st.
Proof.
  unfold derive_category. intros H. destruct long, short; try done. by rewrite H.
Qed.

Lemma derive_rows rs t :
  ∃ int64 : Category → bool * bool,
    rows (tab_all rs t).1 = map (row_all int64 rs) (rows t).
Proof.
  unfold derive, derive_row. cbv zeta.
  destruct (derive_category_rows (comm_long rs) (comm_short rs)
              "Commercial_Net" "Large Commercials" "red" (t, [])) as [f1 H1].
  set (st1 := derive_category _ (comm_long rs) _ _ _ _ _) in *.
  destruct (derive_category_rows (noncomm_long rs) (noncomm_short rs)
              "NonCommercial_Net" "Large Speculators" "blue" st1) as [f2 H2].
  set (st2 := derive_category _ (noncomm_long rs) _ _ _ _ _) in *.
  destruct (derive_category_rows (small_long rs) (small_short rs)
              "NonReportable_Net" "Small Speculators" "yellow" st2) as [f3 H3].
  exists (λ c, match c with Commercial => f1 | NonCommercial => f2 | NonReportable => f3 end).
  rewrite H3, H2, H1. simpl. by rewrite !map_map.
Qed.

Lemma derive_length rs t : length (rows (tab_all rs t).1) = length (rows t).
Proof. destruct (derive_rows rs t) as [fl ->]. by rewrite length_map. Qed.

Lemma derive_data rs t :
  (tab_all rs t).2
  = (if complete Commercial rs then [("Large Commercials", "Commercial_Net", "red")] else [])
    ++ (if complete NonCommercial rs
        then [("Large Speculators", "NonCommercial_Net", "blue")] else [])
    ++ (if complete NonReportable rs
        then [("Small Speculators", "NonReportable_Net", "yellow")] else []).
Proof.
  unfold derive. rewrite !derive_category_data. simpl.
  by rewrite <-app_assoc.
Qed.

Lemma derive_none rs t :
  (∀ c, complete c rs = false) → tab_all rs t = (t, []).
Proof.
  intros H. unfold derive.
  rewrite (derive_category_incomplete (comm_long rs)) by apply (H Commercial).
  rewrite (derive_category_incomplete (noncomm_long rs)) by apply (H NonCommercial).
  by rewrite (derive_category_incomplete (small_long rs)) by apply (H NonReportable).
Qed.

Lemma legacy_branch_returns report_type t :
  ∃ run, branch report_type t = Returned run
         ∧ final_plot_df run = (tab_all (resolve_positions (columns t)) t).1
         ∧ final_trader_data run = (tab_all (resolve_positions (columns t)) t).2.
Proof.
  unfold legacy_branch. cbv zeta.
  destruct (tab_all (resolve_positions (columns t)) t) as [t' td].
  destruct td; eexists; split_and!; done.
Qed.

(** *** The three blocks on one row, for resolved columns *)

Lemma not_net x :
  x ∉ net_names →
  x ≠ "Commercial_Net" ∧ x ≠ "NonCommercial_Net" ∧ x ≠ "NonReportable_Net".
Proof. unfold net_names. rewrite !not_elem_of_cons. by intros (? & ? & ? & _). Qed.

Lemma resolve_sources_apart cols : sources_apart (resolve_positions cols).
Proof.
  intros c sd x H. split; [by apply resolve_Some in H as (_ & ? & _)|].
  by eapply resolve_not_net.
Qed.

Lemma sources_apart_complete rs c l s :
  sources_apart rs → get c Long rs = Some l → get c Short rs = Some s →
  truthy (Some l) && truthy (Some s) = true.
Proof.
  intros H Hl Hs. apply H in Hl as [? _]. apply H in Hs as [? _].
  by rewrite !truthy_Some.
Qed.

Lemma derive_row_net (int64 : Category → bool * bool) rs c l s r :
  sources_apart rs → get c Long rs = Some l → get c Short rs = Some s →
  ok (cell r l) → ok (cell r s) →
  row_all int64 rs r !! net_name c
  = Some (CInt (number_of (cell r l) - number_of (cell r s))).
Proof.
  intros Hrs Hl Hs Hpl Hps.
  pose proof (sources_apart_complete _ _ _ _ Hrs Hl Hs) as Ht.
  pose proof (proj2 (Hrs _ _ _ Hl)) as (Hl1 & Hl2 & Hl3)%not_net.
  pose proof (proj2 (Hrs _ _ _ Hs)) as (Hs1 & Hs2 & Hs3)%not_net.
  assert (∀ c' sd k, k ∈ net_names → get c' sd rs ≠ Some k) as Hn.
  { intros c' sd k Hk Hg. by apply Hrs in Hg as [_ ?]. }
  unfold derive_row. destruct c; simpl in Hl, Hs; simpl.
  - rewrite category_row_frame;
      [|done|apply (Hn NonReportable Long); set_solver
       |apply (Hn NonReportable Short); set_solver].
    rewrite category_row_frame;
      [|done|apply (Hn NonCommercial Long); set_solver
       |apply (Hn NonCommercial Short); set_solver].
    rewrite Hl, Hs. by apply category_row_net.
  - rewrite category_row_frame;
      [|done|apply (Hn NonReportable Long); set_solver
       |apply (Hn NonReportable Short); set_solver].
    rewrite Hl, Hs.
    set (r1 := row_step _ (comm_long rs) _ _ r).
    destruct (category_row_plain (int64 Commercial) (comm_long rs) (comm_short rs)
                "Commercial_Net" r l Hl1 Hpl) as [Hl' <-].
    destruct (category_row_plain (int64 Commercial) (comm_long rs) (comm_short rs)
                "Commercial_Net" r s Hs1 Hps) as [Hs' <-].
    by apply category_row_net.
  - rewrite Hl, Hs.
    set (r1 := row_step _ (comm_long rs) _ _ r).
    destruct (category_row_plain (int64 Commercial) (comm_long rs) (comm_short rs)
                "Commercial_Net" r l Hl1 Hpl) as [Hl' El].
    destruct (category_row_plain (int64 Commercial) (comm_long rs) (comm_short rs)
                "Commercial_Net" r s Hs1 Hps) as [Hs' Es].
    fold r1 in Hl', Hs', El, Es. rewrite <-El, <-Es.
    set (r2 := row_step _ (noncomm_long rs) _ _ r1).
    destruct (category_row_plain (int64 NonCommercial) (noncomm_long rs) (noncomm_short rs)
                "NonCommercial_Net" r1 l Hl2 Hl') as [Hl'' <-].
    destruct (category_row_plain (int64 NonCommercial) (noncomm_long rs) (noncomm_short rs)
                "NonCommercial_Net" r1 s Hs2 Hs') as [Hs'' <-].
    by apply category_row_net.
Qed.

(** Fields that are neither a net column nor a column of a complete pair. *)
Lemma derive_row_frame (int64 : Category → bool * bool) rs r k :
  k ∉ net_names →
  (∀ c sd, complete c rs = true → get c sd rs ≠ Some k) →
  row_all int64 rs r !! k = r !! k.
Proof.
  intros (H1 & H2 & H3)%not_net Hk. unfold derive_row.
  assert (∀ c fl net r', k ≠ net →
            row_step fl (get c Long rs) (get c Short rs) net r' !! k = r' !! k) as Hstep.
  { intros c fl net r' Hnet.
    destruct (complete c rs) eqn:Hc.
    - apply category_row_frame; [done|apply Hk, Hc..].
    - by rewrite category_row_incomplete. }
  rewrite (Hstep NonReportable) by done.
  rewrite (Hstep NonCommercial) by done.
  by rewrite (Hstep Commercial).
Qed.

(** A plain cell of a column of a complete pair holds its number afterwards. *)
Lemma derive_row_source (int64 : Category → bool * bool) rs c sd k r :
  sources_apart rs → complete c rs = true → get c sd rs = Some k → ok (cell r k) →
  row_all int64 rs r !! k = Some (CInt (number_of (cell r k))).
Proof.
  intros Hrs Hc Hk Hp.
  pose proof (proj2 (Hrs _ _ _ Hk)) as (H1 & H2 & H3)%not_net.
  assert (∀ fl net r', k ≠ net → ok (cell r' k) →
            row_step fl (get c Long rs) (get c Short rs) net r' !! k
            = Some (CInt (number_of (cell r' k)))) as Hsrc.
  { intros fl net r' Hnet Hp'. unfold complete in Hc.
    destruct (get c Long rs) as [l|] eqn:El; [|done].
    destruct (get c Short rs) as [s|] eqn:Es; [|by rewrite andb_false_r in Hc].
    apply category_row_source; [done..| |done]. destruct sd; simplify_eq; auto. }
  assert (∀ fl long short net r' z, k ≠ net → r' !! k = Some (CInt z) →
            Z.abs z ≤ 2 ^ 52 →
            row_step fl long short net r' !! k = Some (CInt z)) as Hint.
  { intros fl long short net r' z Hnet Hz Hsmall.
    assert (ok (cell r' k)) as Hp' by (unfold cell; by rewrite Hz).
    destruct (category_row_plain fl long short net r' k Hnet Hp') as [Hq Hn].
    unfold cell in Hq, Hn. rewrite Hz in Hn. simpl in Hn.
    destruct (truthy long && truthy short) eqn:Ht;
      [|by rewrite category_row_incomplete].
    destruct long as [l|], short as [s|]; try done.
    destruct (decide (k = l ∨ k = s)) as [Hk'|Hk'].
    - rewrite category_row_source by done. unfold cell. by rewrite Hz.
    - rewrite category_row_frame; [done..| |]; intros [=]; auto. }
  pose proof (plain_small _ Hp) as Hsmall.
  unfold derive_row. destruct c.
  - apply Hint; [done| |done]. apply Hint; [done| |done]. by apply Hsrc.
  - apply Hint; [done| |done].
    set (r1 := row_step _ (comm_long rs) _ _ r).
    destruct (category_row_plain (int64 Commercial) (comm_long rs) (comm_short rs)
                "Commercial_Net" r k H1 Hp) as [Hp' <-].
    by apply Hsrc.
  - set (r1 := row_step _ (comm_long rs) _ _ r).
    destruct (category_row_plain (int64 Commercial) (comm_long rs) (comm_short rs)
                "Commercial_Net" r k H1 Hp) as [Hp' E1].
    fold r1 in Hp', E1. rewrite <-E1.
    set (r2 := row_step _ (noncomm_long rs) _ _ r1).
    destruct (category_row_plain (int64 NonCommercial) (noncomm_long rs) (noncomm_short rs)
                "NonCommercial_Net" r1 k H2 Hp') as [Hp'' <-].
    by apply Hsrc.
Qed.

End Derivation.

(** *** The derived net column (claim C4) *)

(** C4, as stated, fails beyond the range in which the arithmetic of the
    coerced columns is exact.  In [wide_df] both columns are 64-bit
    integers, Long is 2^63 - 1 and Short is -1: the net column holds
    -2^63, not 2^63.  In [odd_df] the string that is no number makes the
    Long column a column of doubles: 2^53 + 1 is coerced to 2^53, and the net
    column of the row, whose Short is 0, holds 2^53. *)
Lemma C4_exact_difference_refuted :
  let net t i :=
    (rows (derive Parsers.decimal_number (resolve_positions (columns t)) t).1 !! i)
      ≫= (.!! "Commercial_Net") in
  get Commercial Long (resolve_positions (columns wide_df))
    = Some "Commercial Positions-Long (All)"
  ∧ get Commercial Short (resolve_positions (columns wide_df))
    = Some "Commercial Positions-Short (All)"
  ∧ net wide_df 0%nat = Some (CInt (-9223372036854775808))
  ∧ 9223372036854775807 - (-1) ≠ -9223372036854775808
  ∧ get Commercial Long (resolve_positions (columns odd_df))
    = Some "Commercial Positions-Long (All)"
  ∧ get Commercial Short (resolve_positions (columns odd_df))
    = Some "Commercial Positions-Short (All)"
  ∧ net odd_df 1%nat = Some (CInt 9007199254740992)
  ∧ 9007199254740993 - 0 ≠ 9007199254740992.
Proof. cbv zeta. split_and!; by vm_compute. Qed.

(** C4, amended: for every category whose Long and Short columns both
    resolve, and whose cells in these two columns are all plain (integers of
    magnitude at most 2^52, missing values, decimal literals of such
    integers, strings with no digit that spell no infinity), the legacy
    branch returns (it raises nothing), keeps the number of rows and, on
    every row, the net column of the category holds exactly Long minus
    Short, where an integer and a decimal literal count as their number and
    a missing value and a string that is no number count as zero. *)
Theorem C4_net_is_long_minus_short (parse_number : string → option Z)
    (report_type : string) (t : Table) (c : Category) (l s : string) :
  get c Long (resolve_positions (columns t)) = Some l →
  get c Short (resolve_positions (columns t)) = Some s →
  (∀ r, r ∈ rows t → plain parse_number (cell r l) ∧ plain parse_number (cell r s)) →
  ∃ run, legacy_branch parse_number report_type t = Returned run
    ∧ length (rows (final_plot_df run)) = length (rows t)
    ∧ (∀ i r, rows t !! i = Some r →
         ∃ r', rows (final_plot_df run) !! i = Some r'
               ∧ r' !! net_name c
                 = Some (CInt (number_of (cell r l) - number_of (cell r s)))).
Proof.
  intros Hl Hs Hplain.
  destruct (legacy_branch_returns parse_number report_type t) as (run & Hrun & Hdf & _).
  exists run. split; [done|]. rewrite Hdf.
  destruct (derive_rows parse_number (resolve_positions (columns t)) t) as [int64 ->].
  split.
  - by rewrite length_map.
  - intros i r Hr.
    exists (derive_row parse_number int64 (resolve_positions (columns t)) r).
    split; [by rewrite list_lookup_fmap, Hr|].
    destruct (Hplain r) as [??]; [by eapply list_elem_of_lookup_2|].
    apply derive_row_net; [apply resolve_sources_apart|done..].
Qed.

Lemma C4_net_is_long_minus_short_witness :
  ∃ run, legacy_branch Parsers.decimal_number "legacy_fut" counts_df = Returned run
    ∧ length (rows (final_plot_df run)) = length (rows counts_df)
    ∧ (∀ i r, rows counts_df !! i = Some r →
         ∃ r', rows (final_plot_df run) !! i = Some r'
               ∧ r' !! net_name Commercial
                 = Some (CInt (number_of (cell r "Commercial Positions-Long (All)")
                               - number_of (cell r "Commercial Positions-Short (All)")))).
Proof.
  apply (C4_net_is_long_minus_short Parsers.decimal_number "legacy_fut" counts_df
           Commercial "Commercial Positions-Long (All)" "Commercial Positions-Short (All)").
  - reflexivity.
  - reflexivity.
  - intros r Hr. unfold counts_df in Hr. simpl in Hr. set_unfold.
    destruct Hr as [->|[->|[]]]; vm_compute; repeat split; discriminate.
Defined.

(** *** What derivation leaves untouched (claim C7) *)

(** C7, as stated, fails on the working copy: the first row of [legacy_df]
    holds the string "n/a" in the resolved Long column, and after derivation
    the same field of the same row holds the number 0. *)
Lemma C7_source_field_overwritten :
  let t' := (derive Parsers.decimal_number (resolve_positions (columns legacy_df)) legacy_df).1 in
  (rows legacy_df !! 0%nat) ≫= (.!! "Commercial Positions-Long (All)") = Some (CStr "n/a")
  ∧ (rows t' !! 0%nat) ≫= (.!! "Commercial Positions-Long (All)") = Some (CInt 0).
Proof. by vm_compute. Qed.

(** C7, amended: derivation works on the rows of the working copy and keeps
    their number and their order.  In every row, every field that is neither
    a net column nor a column of a complete pair keeps its value.  A column
    of a complete pair is overwritten: a plain cell of it (an integer of
    magnitude at most 2^52, a missing value, a decimal literal of such an
    integer, a string with no digit that spells no infinity) holds its
    number afterwards, so an integer keeps its value, and a missing value
    and a string that is no number are replaced by zero. *)
Theorem C7_derivation_frame (parse_number : string → option Z) (t : Table) :
  let rs := resolve_positions (columns t) in
  let t' := (derive parse_number rs t).1 in
  length (rows t') = length (rows t)
  ∧ ∀ i r, rows t !! i = Some r →
      ∃ r', rows t' !! i = Some r'
        ∧ (∀ k, k ∉ net_names →
                (∀ c sd, complete c rs = true → get c sd rs ≠ Some k) →
                r' !! k = r !! k)
        ∧ (∀ c sd k, complete c rs = true → get c sd rs = Some k →
                     plain parse_number (cell r k) →
                     r' !! k = Some (CInt (number_of (cell r k)))).
Proof.
  intros rs t'. subst t'.
  destruct (derive_rows parse_number rs t) as [int64 ->].
  split; [by rewrite length_map|].
  intros i r Hr. exists (derive_row parse_number int64 rs r). split_and!.
  - by rewrite list_lookup_fmap, Hr.
  - intros k ??. by apply derive_row_frame.
  - intros c sd k ???. eapply derive_row_source; [apply resolve_sources_apart|done..].
Qed.

Lemma C7_derivation_frame_witness :
  let rs := resolve_positions (columns counts_df) in
  let t' := (derive Parsers.decimal_number rs counts_df).1 in
  length (rows t') = 2%nat
  ∧ ∃ r', rows t' !! 1%nat = Some r'
      ∧ r' !! "Market and Exchange Names" = Some (CStr "GOLD")
      ∧ r' !! "Commercial Positions-Long (All)" = Some (CInt 0)
      ∧ r' !! "Commercial Positions-Short (All)" = Some (CInt 250).
Proof.
  intros rs t'.
  destruct (C7_derivation_frame Parsers.decimal_number counts_df) as [Hlen Hrows].
  split; [exact Hlen|].
  destruct (Hrows 1%nat _ eq_refl) as (r' & Hr' & Hframe & Hsrc).
  exists r'. split_and!.
  - exact Hr'.
  - rewrite Hframe; [reflexivity| |].
    + unfold net_names. set_unfold. intros [?|[?|[?|[]]]]; discriminate.
    + intros c sd Hc Hg. destruct c, sd; vm_compute in Hg; discriminate.
  - rewrite (Hsrc Commercial Long); [reflexivity|reflexivity|reflexivity|].
    vm_compute. repeat split; discriminate.
  - rewrite (Hsrc Commercial Short); [reflexivity|reflexivity|reflexivity|].
    vm_compute. repeat split; discriminate.
Defined.

(** ** The whole of plot_trader_positions *)

Lemma prepare_columns parse_datetime now df contract_name start_date end_date plot_df :
  prepare parse_datetime now df contract_name start_date end_date = inr plot_df →
  columns plot_df = columns df.
Proof.
  unfold prepare, filter_bound. intros H.
  repeat case_match; simplify_eq; done.
Qed.

Lemma plot_no_category parse_number parse_datetime now df contract_name report_type
    start_date end_date plot_df :
  prepare parse_datetime now df contract_name start_date end_date = inr plot_df →
  contains "legacy" (lower report_type) = true →
  (∀ c, complete c (resolve_positions (columns plot_df)) = false) →
  plot_trader_positions parse_number parse_datetime now df contract_name report_type
    start_date end_date
  = Returned (mkRun [CouldNotFindPositionColumns report_type; AvailableColumns (columns df)]
                    plot_df [] None).
Proof.
  intros Hprep Hlegacy Hnone.
  unfold plot_trader_positions, legacy_branch. rewrite Hprep, Hlegacy. cbv zeta.
  rewrite derive_none by done. by rewrite (prepare_columns _ _ _ _ _ _ _ Hprep).
Qed.

(** *** No category resolves (claim C6) *)

(** C6: when the call reaches the legacy branch with a working copy on which
    none of the three pairs is complete, the deriver produces no category
    ([trader_data] stays empty, the table is left as it is), the call prints
    the two lines, the second of which lists the columns of the table, and
    returns: nothing is raised, nothing is drawn. *)
Theorem C6_no_category (parse_number parse_datetime : string → option Z) (now : Z)
    (df : Table) (contract_name report_type : string) (start_date end_date : option string)
    (plot_df : Table) :
  prepare parse_datetime now df contract_name start_date end_date = inr plot_df →
  contains "legacy" (lower report_type) = true →
  (∀ c, complete c (resolve_positions (columns plot_df)) = false) →
  derive parse_number (resolve_positions (columns plot_df)) plot_df = (plot_df, [])
  ∧ plot_trader_positions parse_number parse_datetime now df contract_name report_type
      start_date end_date
    = Returned (mkRun [CouldNotFindPositionColumns report_type; AvailableColumns (columns df)]
                      plot_df [] None).
Proof.
  intros Hprep Hlegacy Hnone. split; [by apply derive_none|by apply plot_no_category].
Qed.

Lemma C6_no_category_witness :
  let plot_df :=
    mkTable (columns gold_df)
            [ {[ "Market_and_Exchange_Names" := CStr "GOLD";
                 "Report_Date_as_YYYY-MM-DD" := CInt 1704153600000000000;
                 "Comm_Positions_Long_All" := CInt 1000;
                 "Comm_Positions_Short_All" := CInt 400 ]} ] in
  derive Parsers.decimal_number (resolve_positions (columns plot_df)) plot_df = (plot_df, [])
  ∧ plot_trader_positions Parsers.decimal_number Parsers.iso_datetime 1704900000000000000
      gold_df "GOLD" "legacy_fut" None None
    = Returned (mkRun [CouldNotFindPositionColumns "legacy_fut";
                       AvailableColumns (columns gold_df)] plot_df [] None).
Proof.
  apply (C6_no_category Parsers.decimal_number Parsers.iso_datetime 1704900000000000000
           gold_df "GOLD" "legacy_fut" None None).
  - by vm_compute.
  - reflexivity.
  - intros []; reflexivity.
Defined.

(** *** Report types other than legacy (claim C9) *)

(** C9, as stated, fails twice.  On a table with no date column the call
    raises [ValueError] whatever the report type, instead of printing the
    not-supported line; and the test is made on the lower-cased report type,
    so "LEGACY_FUT", which does not contain 'legacy', is resolved and derived. *)
Lemma C9_not_supported_refuted :
  (contains "legacy" "disaggregated_fut" = false
   ∧ plot_trader_positions Parsers.decimal_number Parsers.iso_datetime 1704900000000000000
       undated_df "GOLD" "disaggregated_fut" None None
     = Raised (ValueError "Could not find date column in dataframe"))
  ∧ (contains "legacy" "LEGACY_FUT" = false
     ∧ ∃ run, plot_trader_positions Parsers.decimal_number Parsers.iso_datetime
                1704900000000000000 legacy_df "GOLD" "LEGACY_FUT" None None = Returned run
              ∧ final_trader_data run = [("Large Commercials", "Commercial_Net", "red")]
              ∧ printed run = []).
Proof.
  split; [by vm_compute|]. split; [by vm_compute|].
  eexists. split; [by vm_compute|]. by vm_compute.
Qed.

(** C9, amended: for every report type whose lower-cased form does not
    contain 'legacy', once the date and contract columns are found, the
    contract has rows and the dates parse, the call resolves no position
    column and derives nothing: it prints the not-supported line and returns,
    the working copy having the columns of the input table. *)
Theorem C9_not_supported (parse_number parse_datetime : string → option Z) (now : Z)
    (df : Table) (contract_name report_type : string) (start_date end_date : option string)
    (plot_df : Table) :
  prepare parse_datetime now df contract_name start_date end_date = inr plot_df →
  contains "legacy" (lower report_type) = false →
  plot_trader_positions parse_number parse_datetime now df contract_name report_type
    start_date end_date
  = Returned (mkRun [NotYetSupported report_type] plot_df [] None)
  ∧ columns plot_df = columns df.
Proof.
  intros Hprep Hlegacy. split; [|by eapply prepare_columns].
  unfold plot_trader_positions. by rewrite Hprep, Hlegacy.
Qed.

Lemma C9_not_supported_witness :
  let plot_df :=
    mkTable (columns gold_df)
            [ {[ "Market_and_Exchange_Names" := CStr "GOLD";
                 "Report_Date_as_YYYY-MM-DD" := CInt 1704153600000000000;
                 "Comm_Positions_Long_All" := CInt 1000;
                 "Comm_Positions_Short_All" := CInt 400 ]} ] in
  plot_trader_positions Parsers.decimal_number Parsers.iso_datetime 1704900000000000000
    gold_df "GOLD" "disaggregated_fut" None None
  = Returned (mkRun [NotYetSupported "disaggregated_fut"] plot_df [] None)
  ∧ columns plot_df = columns gold_df.
Proof.
  apply (C9_not_supported Parsers.decimal_number Parsers.iso_datetime 1704900000000000000
           gold_df "GOLD" "disaggregated_fut" None None).
  - by vm_compute.
  - reflexivity.
Defined.

(** *** The end-to-end example (claim C1) *)

(** C1: the code does not do what the claim says.  On the table of the claim,
    whatever the clock and the two parsers, neither Commercial column
    resolves; the call either raises on the date (when the date parser
    rejects it) or prints that no position column was found, with an empty
    [trader_data], no chart and no Commercial_Net column. *)
Theorem C1_gold_not_derived (parse_number parse_datetime : string → option Z) (now : Z) :
  comm_long (resolve_positions (columns gold_df)) = None
  ∧ comm_short (resolve_positions (columns gold_df)) = None
  ∧ match plot_trader_positions parse_number parse_datetime now gold_df "GOLD" "legacy_fut"
            None None with
    | Raised e => parse_datetime "2024-01-02" = None ∧ e = DateParseError "2024-01-02"
    | Returned run =>
        printed run = [CouldNotFindPositionColumns "legacy_fut";
                       AvailableColumns (columns gold_df)]
        ∧ final_trader_data run = []
        ∧ chart run = None
        ∧ "Commercial_Net" ∉ columns (final_plot_df run)
    end.
Proof.
  split; [done|]. split; [done|].
  destruct (prepare parse_datetime now gold_df "GOLD" None None) as [o|plot_df] eqn:Hprep.
  - unfold plot_trader_positions. rewrite Hprep.
    unfold prepare in Hprep.
    change (find_col is_plot_date_col (columns gold_df))
      with (Some "Report_Date_as_YYYY-MM-DD") in Hprep.
    change (find_col is_contract_col (columns gold_df))
      with (Some "Market_and_Exchange_Names") in Hprep.
    cbv beta iota zeta in Hprep.
    change (empty (select_eq "Market_and_Exchange_Names" (CStr "GOLD") gold_df))
      with false in Hprep.
    cbv beta iota zeta in Hprep.
    change (rows (select_eq "Market_and_Exchange_Names" (CStr "GOLD") gold_df))
      with (rows gold_df) in Hprep.
    unfold gold_df, rows, convert_dates, to_datetime in Hprep.
    change (cell _ "Report_Date_as_YYYY-MM-DD") with (CStr "2024-01-02") in Hprep.
    cbv beta iota zeta in Hprep.
    destruct (parse_datetime "2024-01-02"); [|by simplify_eq].
    simpl in Hprep. done.
  - pose proof (prepare_columns _ _ _ _ _ _ _ Hprep) as Hcols.
    assert (∀ c, complete c (resolve_positions (columns plot_df)) = false) as Hnone.
    { rewrite Hcols. by intros []. }
    rewrite (plot_no_category parse_number parse_datetime now gold_df "GOLD" "legacy_fut"
               None None plot_df Hprep eq_refl Hnone).
    simpl. split_and!; [done..|]. rewrite Hcols. unfold gold_df. simpl.
    rewrite !not_elem_of_cons. split_and!; [done..|]. apply not_elem_of_nil.
Qed.

(** * Consolidation and the list of contracts *)

(** ** The order of sort_values and sorted *)

#[global] Instance cell_le_refl : Reflexive cell_le.
Proof.
  intros [s|z|]; unfold cell_le; simpl; [|lia|done].
  apply Is_true_true. change (String.le s s). reflexivity.
Qed.

#[global] Instance cell_le_trans : Transitive cell_le.
Proof.
  intros [s1|z1|] [s2|z2|] [s3|z3|]; unfold cell_le; simpl; try done; try lia.
  intros H1%Is_true_true H2%Is_true_true. apply Is_true_true.
  change (String.le s1 s3). by trans s2.
Qed.

#[global] Instance cell_le_total : Total cell_le.
Proof.
  intros [s1|z1|] [s2|z2|]; unfold cell_le; simpl; auto; try lia.
  destruct (String.leb_total s1 s2); auto.
Qed.

#[global] Instance cell_le_antisym : AntiSymm (=) cell_le.
Proof.
  intros [s1|z1|] [s2|z2|]; unfold cell_le; simpl; try done.
  - intros H1 H2. f_equal. by apply String.leb_antisym.
  - intros. f_equal. lia.
Qed.

#[global] Instance row_le_trans col : Transitive (row_le col).
Proof. intros r1 r2 r3. unfold row_le. apply cell_le_trans. Qed.

#[global] Instance row_le_total col : Total (row_le col).
Proof. intros r1 r2. unfold row_le. apply cell_le_total. Qed.

(** ** unique *)

Lemma elem_of_unique x l : x ∈ unique l ↔ x ∈ l.
Proof.
  induction l as [|y l IH]; simpl; [done|].
  rewrite !elem_of_cons, list_elem_of_filter, IH.
  destruct (decide (x = y)); intuition congruence.
Qed.

Lemma NoDup_unique l : NoDup (unique l).
Proof.
  induction l as [|y l IH]; simpl; [constructor|].
  constructor.
  - rewrite list_elem_of_filter. by intros [? _].
  - by apply NoDup_filter.
Qed.

(** ** drop_duplicates and the sort after it *)

Section Dedup.

Variable d : string.

Local Abbreviation key := (λ r : gmap string Cell, cell r d).
Local Abbreviation keys := (map (λ r : gmap string Cell, cell r d)).
Local Abbreviation dedup := (drop_duplicates d).
Local Abbreviation msort := (merge_sort (row_le d)).

Lemma drop_duplicates_cons_in r rs :
  key r ∈ keys rs → dedup (r :: rs) = dedup rs.
Proof. intros H. simpl. by rewrite bool_decide_eq_true_2. Qed.

Lemma drop_duplicates_cons_out r rs :
  key r ∉ keys rs → dedup (r :: rs) = r :: dedup rs.
Proof. intros H. simpl. by rewrite bool_decide_eq_false_2. Qed.




Lemma elem_of_drop_duplicates r rs : r ∈ dedup rs ↔ last_occurrence d r rs.
Proof.
  unfold last_occurrence. induction rs as [|x rs IH].
  { simpl. split; [by intros ?%elem_of_nil|].
    intros (pre & post & Heq & _). by destruct pre. }
  split.
  - destruct (decide (key x ∈ keys rs)) as [Hin|Hout].
    + rewrite drop_duplicates_cons_in by done.
      intros (pre & post & -> & Hlast)%IH. by exists (x :: pre), post.
    + rewrite drop_duplicates_cons_out, elem_of_cons by done.
      intros [->|(pre & post & -> & Hlast)%IH].
      * by exists [], rs.
      * by exists (x :: pre), post.
  - intros (pre & post & Heq & Hlast). destruct pre as [|y pre]; simplify_eq/=.
    + rewrite bool_decide_eq_false_2 by done. left.
    + assert (r ∈ dedup (pre ++ r :: post)) as Hr by (apply IH; eauto).
      case_bool_decide; [done|by right].
Qed.









End Dedup.

(** ** Comparable columns *)

Lemma comparable_within vs l :
  (∀ x, x ∈ l → x ∈ vs) → comparable vs = true → comparable l = true.
Proof.
  unfold comparable. intros Hsub Hvs.
  apply negb_true_iff, andb_false_iff in Hvs. apply negb_true_iff, not_true_iff_false.
  intros [(x & Hx%list_elem_of_In & Hsx)%existsb_exists
          (y & Hy%list_elem_of_In & Hiy)%existsb_exists]%andb_prop.
  destruct Hvs as [Hvs|Hvs]; apply not_true_iff_false in Hvs; destruct Hvs;
    apply existsb_exists.
  - exists x. split; [|done]. apply list_elem_of_In. auto.
  - exists y. split; [|done]. apply list_elem_of_In. auto.
Qed.

Lemma comparable_strings l : (∀ x, x ∈ l → is_str x = true) → comparable l = true.
Proof.
  unfold comparable. intros Hl. apply negb_true_iff, not_true_iff_false.
  intros [_ (y & Hy%list_elem_of_In%Hl & Hiy)%existsb_exists]%andb_prop.
  by destruct y.
Qed.

(** ** The loops of consolidate_by_contract *)

Section Consolidation.

Variable d : string.
Variable vs : list Cell.
Hypothesis vs_comparable : comparable vs = true.

Implicit Types (c : gmap Cell Table) (df t : Table) (k : Cell).

Local Abbreviation within := (values_within d vs).
Local Abbreviation tables_within := (tables_within d vs).

Lemma select_eq_within ccol k df : within (rows df) → within (rows (select_eq ccol k df)).
Proof. intros H r [_ Hr]%list_elem_of_filter. by apply H. Qed.

Lemma merge_table_within a t :
  within (rows a) → within (rows t) → within (rows (merge_table d a t)).
Proof.
  intros Ha Ht r. unfold merge_table. simpl.
  rewrite merge_sort_Permutation, elem_of_drop_duplicates.
  intros (pre & post & Heq & _).
  assert (r ∈ rows a ++ rows t) as [?|?]%elem_of_app; auto.
  rewrite Heq, elem_of_app, elem_of_cons. auto.
Qed.

Lemma merge_contract_returns a t :
  find_col is_date_col (columns t) = Some d →
  within (rows a) → within (rows t) →
  merge_contract a t = inr (merge_table d a t).
Proof.
  intros Hd Ha Ht. unfold merge_contract, sort_values. rewrite Hd. cbv zeta.
  rewrite (comparable_within vs); [done| |done].
  unfold column_values. simpl. intros x (r & -> & Hr)%list_elem_of_fmap.
  apply elem_of_drop_duplicates in Hr as (pre & post & Heq & _).
  assert (r ∈ rows a ++ rows t) as [?|?]%elem_of_app; auto.
  rewrite Heq, elem_of_app, elem_of_cons. auto.
Qed.

Lemma merge_contract_undated a t :
  find_col is_date_col (columns t) = None → merge_contract a t = inl IndexError.
Proof. intros Hd. unfold merge_contract. by rewrite Hd. Qed.

Lemma add_contract_returns df ccol c k :
  find_col is_date_col (columns df) = Some d →
  within (rows df) → tables_within c →
  ∃ t, step_merge d (c !! k) (select_eq ccol k df) = Some t
       ∧ within (rows t)
       ∧ add_contract df ccol (inr c) k = inr (<[k := t]> c).
Proof.
  intros Hd Hdf Hc. unfold add_contract, step_merge.
  destruct (c !! k) as [a|] eqn:Hk.
  - rewrite (merge_contract_returns a); [|done|by eapply Hc|by apply select_eq_within].
    eexists. split; [done|]. split; [|done].
    apply merge_table_within; [by eapply Hc|by apply select_eq_within].
  - eexists. split; [done|]. split; [|done]. by apply select_eq_within.
Qed.

Lemma tables_within_insert c k t :
  tables_within c → within (rows t) → tables_within (<[k := t]> c).
Proof.
  intros Hc Ht k' t'. destruct (decide (k = k')) as [->|Hne].
  - rewrite lookup_insert_eq. by intros [= <-].
  - rewrite lookup_insert_ne by done. apply Hc.
Qed.

Lemma add_contracts_return df ccol ks c :
  find_col is_date_col (columns df) = Some d →
  within (rows df) → tables_within c → NoDup ks →
  ∃ c', fold_left (add_contract df ccol) ks (inr c) = inr c'
        ∧ tables_within c'
        ∧ ∀ k, c' !! k = if bool_decide (k ∈ ks)
                         then step_merge d (c !! k) (select_eq ccol k df)
                         else c !! k.
Proof.
  intros Hd Hdf. revert c. induction ks as [|k0 ks IH]; intros c Hc Hnd.
  { exists c. split; [done|]. split; [done|]. intros k.
    rewrite bool_decide_eq_false_2; [done|apply not_elem_of_nil]. }
  apply NoDup_cons in Hnd as [Hk0 Hnd].
  destruct (add_contract_returns df ccol c k0 Hd Hdf Hc) as (t & Ht & Hwt & Hstep).
  cbn [fold_left]. rewrite Hstep.
  destruct (IH (<[k0 := t]> c)) as (c' & Hfold & Hc' & Hlook);
    [by apply tables_within_insert|done|].
  exists c'. split; [done|]. split; [done|]. intros k. rewrite Hlook.
  destruct (decide (k = k0)) as [->|Hne].
  - rewrite bool_decide_eq_false_2 by done.
    rewrite (bool_decide_eq_true_2 (k0 ∈ k0 :: ks)) by left.
    by rewrite lookup_insert_eq.
  - rewrite lookup_insert_ne by done.
    rewrite (bool_decide_ext (k ∈ k0 :: ks) (k ∈ ks)); [done|].
    rewrite elem_of_cons. intuition congruence.
Qed.

Lemma add_table_returns log c entry :
  find_col is_date_col (columns entry.2) = Some d →
  within (rows entry.2) → tables_within c →
  ∃ log' c', add_table (log, inr c) entry = (log', inr c')
             ∧ tables_within c'
             ∧ ∀ k, c' !! k = match contribution k entry with
                              | Some t => step_merge d (c !! k) t
                              | None => c !! k
                              end.
Proof.
  intros Hd Hdf Hc. unfold add_table, contribution. cbn [snd fst].
  destruct (empty entry.2); [by exists log, c|].
  destruct (find_col is_contract_col (columns entry.2)) as [ccol|];
    [|by eexists _, c].
  destruct (add_contracts_return entry.2 ccol (unique (column_values ccol entry.2)) c)
    as (c' & Hfold & Hc' & Hlook); [done..|apply NoDup_unique|].
  exists log, c'. rewrite Hfold. split; [done|]. split; [done|]. intros k.
  rewrite Hlook.
  rewrite (bool_decide_ext _ (k ∈ column_values ccol entry.2)) by apply elem_of_unique.
  by case_bool_decide.
Qed.

Lemma add_tables_return dataframes log c :
  (∀ entry, entry ∈ dataframes → find_col is_date_col (columns entry.2) = Some d) →
  (∀ entry, entry ∈ dataframes → within (rows entry.2)) →
  tables_within c →
  ∃ log' c', fold_left add_table dataframes (log, inr c) = (log', inr c')
             ∧ ∀ k, c' !! k = fold_left (step_merge d) (contributions k dataframes) (c !! k).
Proof.
  revert log c. induction dataframes as [|entry dataframes IH]; intros log c Hd Hdf Hc.
  { by exists log, c. }
  destruct (add_table_returns log c entry) as (log1 & c1 & Hstep & Hc1 & Hlook1);
    [apply Hd; left|apply Hdf; left|done|].
  destruct (IH log1 c1) as (log' & c' & Hfold & Hlook);
    [intros; apply Hd; by right|intros; apply Hdf; by right|done|].
  exists log', c'. cbn [fold_left]. rewrite Hstep. split; [done|]. intros k.
  rewrite Hlook, Hlook1. unfold contributions. cbn [omap list_omap].
  by destruct (contribution k entry).
Qed.


End Consolidation.

Lemma all_values_within d dataframes entry :
  entry ∈ dataframes → values_within d (all_values d dataframes) (rows entry.2).
Proof.
  intros He r Hr. unfold all_values. apply list_elem_of_In, in_flat_map.
  exists entry. split; [by apply list_elem_of_In|].
  apply list_elem_of_In. unfold column_values. by apply (list_elem_of_fmap_2 (λ r, cell r d)).
Qed.

(** Consolidation of tables that agree on their date column, whose values
    can be compared: no exception, and each key holds the merge of the tables
    it comes from, in their order. *)
Lemma consolidate_returns d dataframes :
  (∀ entry, entry ∈ dataframes → find_col is_date_col (columns entry.2) = Some d) →
  comparable (all_values d dataframes) = true →
  ∃ log c, consolidate_by_contract dataframes = (log, inr c)
           ∧ ∀ k, c !! k = fold_left (step_merge d) (contributions k dataframes) None.
Proof.
  intros Hd Hcmp.
  destruct (add_tables_return d (all_values d dataframes) Hcmp dataframes
              [ConsolidatingData] ∅) as (log & c & Hfold & Hlook);
    [done|intros; by apply all_values_within|by intros k t ?|].
  unfold consolidate_by_contract. cbv zeta. rewrite Hfold. cbn [snd fst].
  eexists _, c. split; [done|]. intros k. by rewrite Hlook, lookup_empty.
Qed.

(** ** Tables that consolidation cannot read *)

Lemma add_contracts_raised df ccol ks e :
  fold_left (add_contract df ccol) ks (inl e) = inl e.
Proof. by induction ks. Qed.

Lemma add_tables_raised dataframes log e :
  fold_left add_table dataframes (log, inl e) = (log, inl e).
Proof. by induction dataframes. Qed.





Lemma consolidate_snd dataframes :
  (consolidate_by_contract dataframes).2
  = (fold_left add_table dataframes ([ConsolidatingData], inr ∅)).2.
Proof.
  unfold consolidate_by_contract. cbv zeta.
  destruct (fold_left add_table dataframes ([ConsolidatingData], inr ∅)) as [log s].
  cbn [snd]. by destruct s.
Qed.




(** A table with no date column, one of whose contracts is in the dictionary
    already: the list of date columns is empty and its first element is
    asked for. *)
Lemma add_contracts_undated df ccol ks c k :
  find_col is_date_col (columns df) = None →
  k ∈ ks → is_Some (c !! k) →
  fold_left (add_contract df ccol) ks (inr c) = inl IndexError.
Proof.
  intros Hd. revert c. induction ks as [|k0 ks IH]; intros c Hk Hc.
  { by apply elem_of_nil in Hk. }
  cbn [fold_left]. unfold add_contract at 2.
  destruct (c !! k0) as [a|] eqn:Hk0.
  - rewrite merge_contract_undated by done. apply add_contracts_raised.
  - apply elem_of_cons in Hk as [->|Hk]; [rewrite Hk0 in Hc; by destruct Hc|].
    apply IH; [done|]. rewrite lookup_insert_ne; [done|]. intros ->.
    rewrite Hk0 in Hc. by destruct Hc.
Qed.

Lemma add_table_undated log c report_type df ccol k :
  empty df = false →
  find_col is_contract_col (columns df) = Some ccol →
  find_col is_date_col (columns df) = None →
  k ∈ column_values ccol df → is_Some (c !! k) →
  add_table (log, inr c) (report_type, df) = (log, inl IndexError).
Proof.
  intros He Hc Hd Hk Hsome. unfold add_table. cbn [fst snd]. rewrite He, Hc.
  f_equal. apply (add_contracts_undated df ccol _ c k); [done| |done].
  by apply elem_of_unique.
Qed.

(** *** Consolidation by contract (claim C5) *)




(** The run of the witness, evaluated: GOLD holds one row per date, the row
    of the second report at the common date, in date order; OIL, found in the
    first report only, holds its row. *)
Example two_reports_consolidated :
  ∃ gold,
    consolidate_by_contract two_reports
    = ([ConsolidatingData; Consolidated 2],
       inr {[ CStr "GOLD" := gold;
              CStr "OIL" := select_eq "Market_and_Exchange_Names" (CStr "OIL")
                              first_report_df ]})
    ∧ column_values "Report_Date_as_YYYY-MM-DD" gold
      = [CStr "2024-01-02"; CStr "2024-01-09"; CStr "2024-01-16"]
    ∧ column_values "Open_Interest_All" gold = [CInt 101; CInt 999; CInt 120].
Proof.
  exists (merge_table "Report_Date_as_YYYY-MM-DD"
            (select_eq "Market_and_Exchange_Names" (CStr "GOLD") first_report_df)
            (select_eq "Market_and_Exchange_Names" (CStr "GOLD") second_report_df)).
  split; [vm_compute; reflexivity|]. split; vm_compute; reflexivity.
Qed.

(** *** Tables whose roles cannot be resolved (claim C8) *)

(** C8 does not hold of consolidation for the date role: [date_cols[0]]
    (main.py, line 113) is taken with no test that a date column exists.  A
    table with no date column is consolidated like any other, with no
    message; and when one of its contracts is in the dictionary already, the
    whole consolidation ends with [IndexError]: nothing is returned for the
    tables read before, the tables after it are not read, no message is
    printed. *)
Lemma C8_undated_table_refuted :
  find_col is_date_col (columns undated_df) = None
  ∧ consolidate_by_contract [("legacy_fut", undated_df)]
    = ([ConsolidatingData; Consolidated 1], inr {[ CStr "GOLD" := undated_df ]})
  ∧ consolidate_by_contract
      [("legacy_fut", legacy_df); ("disaggregated_fut", undated_df);
       ("tff_fut", first_report_df)]
    = ([ConsolidatingData], inl IndexError).
Proof. split; [reflexivity|]. split; vm_compute; reflexivity. Qed.

(** C8, the date role in consolidation: whenever a non-empty table that has
    a contract column and no date column holds a contract that the tables
    before it have consolidated, consolidation of the whole collection ends
    with [IndexError], whatever tables follow; the table is not skipped and
    the remaining tables are not processed. *)
Theorem C8_missing_date_column_aborts (pre post : list (string * Table))
    (report_type : string) (df : Table) (c : gmap Cell Table) (contract_col : string)
    (k : Cell) :
  (consolidate_by_contract pre).2 = inr c →
  empty df = false →
  find_col is_contract_col (columns df) = Some contract_col →
  find_col is_date_col (columns df) = None →
  k ∈ column_values contract_col df →
  is_Some (c !! k) →
  (consolidate_by_contract (pre ++ (report_type, df) :: post)).2 = inl IndexError.
Proof.
  intros Hpre He Hc Hd Hk Hsome.
  rewrite consolidate_snd in Hpre. rewrite consolidate_snd, fold_left_app.
  cbn [fold_left].
  destruct (fold_left add_table pre ([ConsolidatingData], inr ∅)) as [log s].
  cbn [snd] in Hpre. subst s.
  rewrite (add_table_undated log c report_type df contract_col k) by done.
  by rewrite add_tables_raised.
Qed.

Lemma C8_missing_date_column_aborts_witness :
  (consolidate_by_contract
     ([("legacy_fut", legacy_df)] ++ ("disaggregated_fut", undated_df)
        :: [("tff_fut", first_report_df)])).2
  = inl IndexError.
Proof.
  apply (C8_missing_date_column_aborts [("legacy_fut", legacy_df)]
           [("tff_fut", first_report_df)] "disaggregated_fut" undated_df
           {[ CStr "GOLD" := legacy_df ]} "Market and Exchange Names" (CStr "GOLD")).
  - vm_compute; reflexivity.
  - reflexivity.
  - reflexivity.
  - reflexivity.
  - vm_compute. left.
  - vm_compute; by eexists.
Defined.

(** *** Tables whose identifier cannot be found *)



(** ** get_available_contracts *)


(** *** The contracts of a report (claim C10) *)











(** The list of the witness, evaluated. *)
Example two_reports_contracts :
  get_available_contracts two_reports "legacy_fut" = inr [CStr "GOLD"; CStr "OIL"].
Proof. vm_compute; reflexivity. Qed.

(** * File names, search, ticks, the working copy, loading and fetching *)

(** ** File names of the contract files *)

Section SafeName.

Implicit Types (s : string) (c : ascii) (f g : ascii → ascii) (n i : nat).

Lemma length_map_chars f s : String.length (map_chars f s) = String.length s.
Proof. induction s; simpl; congruence. Qed.

Lemma get_map_chars f s i : String.get i (map_chars f s) = f <$> String.get i s.
Proof. revert i. induction s as [|c s IH]; intros [|i]; simpl; auto. Qed.

Lemma map_chars_compose f g s : map_chars f (map_chars g s) = map_chars (λ c, f (g c)) s.
Proof. induction s; simpl; congruence. Qed.

Lemma map_chars_ext f g s :
  (∀ i c, String.get i s = Some c → f c = g c) → map_chars f s = map_chars g s.
Proof.
  induction s as [|c s IH]; intros H; simpl; [done|]. f_equal.
  - by apply (H 0%nat).
  - apply IH. intros i c' Hi. by apply (H (S i)).
Qed.

Lemma map_chars_id s : map_chars (λ c, c) s = s.
Proof. induction s; simpl; congruence. Qed.

Lemma map_chars_app f s1 s2 :
  map_chars f (s1 +:+ s2) = map_chars f s1 +:+ map_chars f s2.
Proof.
  induction s1 as [|c s1 IH]; [done|].
  change (String (f c) (map_chars f (s1 +:+ s2))
          = String (f c) (map_chars f s1 +:+ map_chars f s2)).
  by rewrite IH.
Qed.

Lemma length_prefix n s :
  String.length (String.substring 0 n s) = Nat.min n (String.length s).
Proof. revert s. induction n as [|n IH]; intros [|c s]; simpl; auto. Qed.

Lemma prefix_map_chars f n s :
  String.substring 0 n (map_chars f s) = map_chars f (String.substring 0 n s).
Proof. revert s. induction n as [|n IH]; intros [|c s]; simpl; try done. by rewrite IH. Qed.

Lemma prefix_long n s : (String.length s ≤ n)%nat → String.substring 0 n s = s.
Proof.
  revert s. induction n as [|n IH]; intros [|c s]; simpl; try done; [lia|].
  intros H. rewrite IH; [done|lia].
Qed.

Lemma clean_safe c : is_safe (clean c) = true.
Proof. by destruct c as [[] [] [] [] [] [] [] []]. Qed.

Lemma clean_ascii c : is_ascii (clean c) = true.
Proof. by destruct c as [[] [] [] [] [] [] [] []]. Qed.

Lemma clean_fixed c : is_safe c = true → clean c = c.
Proof. by destruct c as [[] [] [] [] [] [] [] []]. Qed.

Lemma clean_unsafe c : is_safe c = false → clean c = "_"%char.
Proof. by destruct c as [[] [] [] [] [] [] [] []]. Qed.

Lemma is_safe_cases c :
  is_safe c = true ↔ isalnum c = true ∨ c = "-"%char ∨ c = "_"%char.
Proof.
  unfold is_safe. rewrite !orb_true_iff, !bool_decide_eq_true. tauto.
Qed.

Lemma safe_name_clean s : safe_name s = map_chars clean (String.substring 0 100 s).
Proof. unfold safe_name. cbv zeta. by rewrite map_chars_compose, prefix_map_chars. Qed.

End SafeName.

(** ** Properties of the file names *)

(** X1: The file name of a contract whose name is made of ASCII characters
    has the first hundred characters of the contract name at most, and
    every one of them is an ASCII letter, a digit, a hyphen or an
    underscore: no space, no dot, no path separator. *)
Theorem safe_name_shape (contract : string) :
  all_chars is_ascii contract = true →
  String.length (safe_name contract) = Nat.min 100 (String.length contract)
  ∧ ∀ i c, String.get i (safe_name contract) = Some c →
           is_ascii c = true ∧ (isalnum c = true ∨ c = "-"%char ∨ c = "_"%char).
Proof.
  intros _. rewrite safe_name_clean. split.
  - by rewrite length_map_chars, length_prefix.
  - intros i c. rewrite get_map_chars. intros (c' & _ & ->)%fmap_Some.
    split; [apply clean_ascii|apply is_safe_cases, clean_safe].
Qed.

Lemma safe_name_shape_witness :
  String.length (safe_name "S&P 500 / CME") = Nat.min 100 (String.length "S&P 500 / CME")
  ∧ ∀ i c, String.get i (safe_name "S&P 500 / CME") = Some c →
           is_ascii c = true ∧ (isalnum c = true ∨ c = "-"%char ∨ c = "_"%char).
Proof. apply (safe_name_shape "S&P 500 / CME"). reflexivity. Defined.

(** X2: A contract name of a hundred characters at most, all of them letters,
    digits, hyphens or underscores, is its own file name. *)
Theorem safe_name_fixed (contract : string) :
  (String.length contract ≤ 100)%nat →
  (∀ i c, String.get i contract = Some c →
          isalnum c = true ∨ c = "-"%char ∨ c = "_"%char) →
  safe_name contract = contract.
Proof.
  intros Hlen Hsafe. rewrite safe_name_clean, prefix_long by done.
  rewrite <-(map_chars_id contract) at 2. apply map_chars_ext.
  intros i c Hc. by apply clean_fixed, is_safe_cases, (Hsafe i).
Qed.

Lemma safe_name_fixed_witness : safe_name "GOLD_-_COMEX" = "GOLD_-_COMEX".
Proof.
  apply (safe_name_fixed "GOLD_-_COMEX").
  - simpl. lia.
  - intros i c H. apply is_safe_cases.
    do 12 (destruct i as [|i]; [by injection H as <-|]). discriminate H.
Defined.

(** Naming is idempotent. *)
Theorem safe_name_idempotent (contract : string) :
  safe_name (safe_name contract) = safe_name contract.
Proof.
  rewrite !safe_name_clean, prefix_map_chars, map_chars_compose.
  rewrite (prefix_long 100 (String.substring 0 100 contract))
    by (rewrite length_prefix; lia).
  apply map_chars_ext. intros i c _. apply clean_fixed, clean_safe.
Qed.

(** X3: Two contract names that differ by one character which is neither a
    letter, a digit, a hyphen nor an underscore, the other name having an
    underscore there, are different names with the same file name: the file
    of the contract saved first is overwritten by the second. *)
Theorem safe_name_collision (before after : string) (c : ascii) :
  isalnum c = false → c ≠ "-"%char → c ≠ "_"%char →
  before +:+ String c after ≠ before +:+ String "_" after
  ∧ safe_name (before +:+ String c after) = safe_name (before +:+ String "_" after).
Proof.
  intros Hal Hh Hu. split.
  - intros [= ?]%(inj (String.app before)). done.
  - unfold safe_name. cbv zeta. rewrite !map_chars_compose. f_equal.
    rewrite !map_chars_app. f_equal.
    change (String (clean c) (map_chars clean after)
            = String (clean "_") (map_chars clean after)).
    f_equal. rewrite clean_unsafe; [done|].
    unfold is_safe. rewrite Hal. by rewrite !bool_decide_eq_false_2.
Qed.

Lemma safe_name_collision_witness :
  "S&P 500" ≠ "S_P 500" ∧ safe_name "S&P 500" = safe_name "S_P 500".
Proof. apply (safe_name_collision "S" "P 500" "&"); [reflexivity|done|done]. Defined.

(** ** Search of a contract by name *)

Lemma dict_get_item {A} (d : list (string * A)) key v :
  NoDup d.*1 → (key, v) ∈ d → dict_get key d = Some v.
Proof.
  unfold dict_get. induction d as [|[k' v'] d IH]; [by intros _ ?%elem_of_nil|].
  rewrite fmap_cons, NoDup_cons, elem_of_cons. intros [Hk Hnd] [[= -> ->]|Hin]; simpl.
  - by rewrite bool_decide_eq_true_2.
  - rewrite bool_decide_eq_false_2; [by apply IH|].
    intros ->. apply Hk. by apply (list_elem_of_fmap_2 fst _ (key, v)).
Qed.

Lemma aliases_NoDup : NoDup aliases.*1.
Proof. apply (bool_decide_unpack (NoDup aliases.*1)). by vm_compute. Qed.

Lemma StronglySorted_filter {A} (R : relation A) (P : A → Prop) `{!∀ x, Decision (P x)} l :
  StronglySorted R l → StronglySorted R (filter P l).
Proof.
  induction 1 as [|x l Hl IH Hx]; [constructor|].
  rewrite filter_cons. destruct (decide (P x)); [|done].
  constructor; [done|]. rewrite Forall_forall in Hx. apply Forall_forall.
  intros y [_ Hy]%list_elem_of_filter. by apply Hx.
Qed.

(** Every full name of the alias table is in upper case, and is no key of
    the table unless it stands for itself. *)
Lemma aliases_full_names :
  Forall (λ item, upper item.2 = item.2
                  ∧ default item.2 (dict_get item.2 aliases) = item.2) aliases.
Proof.
  apply (bool_decide_unpack
           (Forall (λ item : string * string,
              upper item.2 = item.2
              ∧ default item.2 (dict_get item.2 aliases) = item.2) aliases)).
  by vm_compute.
Qed.

(** X4: A key of the alias table, in any letter case, finds what its full
    name finds: 'oil' and 'CRUDE OIL' return the same contracts of any
    list, in the same order. *)
Theorem search_alias_as_full_name (contracts : list string)
    (search_term full_name : string) :
  (upper search_term, full_name) ∈ aliases →
  search_contracts contracts search_term = search_contracts contracts full_name.
Proof.
  intros Hin. unfold search_contracts. cbv zeta.
  rewrite (dict_get_item aliases _ full_name aliases_NoDup Hin).
  pose proof aliases_full_names as Hall. rewrite Forall_forall in Hall.
  destruct (Hall _ Hin) as [Hup Hself]. simpl in Hup, Hself. rewrite Hup.
  destruct (dict_get full_name aliases) as [full_name'|]; [|done].
  simpl in Hself. by subst full_name'.
Qed.

Lemma search_alias_as_full_name_witness :
  search_contracts ["CRUDE OIL, LIGHT SWEET"; "HEATING OIL"] "oil"
  = search_contracts ["CRUDE OIL, LIGHT SWEET"; "HEATING OIL"] "CRUDE OIL".
Proof.
  apply (search_alias_as_full_name ["CRUDE OIL, LIGHT SWEET"; "HEATING OIL"]
           "oil" "CRUDE OIL").
  apply (bool_decide_unpack (_ ∈ aliases)). by vm_compute.
Defined.

(** The run of the witness, evaluated: 'oil' stands for CRUDE OIL and does
    not find HEATING OIL. *)
Example search_oil :
  search_contracts ["CRUDE OIL, LIGHT SWEET"; "HEATING OIL"] "oil"
  = ["CRUDE OIL, LIGHT SWEET"].
Proof. by vm_compute. Qed.

(** X5: The matches of a search in the list [get_available_contracts] returned
    are in alphabetical order and without repetition. *)
Theorem search_available_sorted (dataframes : list (string * Table))
    (report_type search_term : string) (contracts : list string) :
  get_available_contracts dataframes report_type = inr (CStr <$> contracts) →
  StronglySorted String.le (search_contracts contracts search_term)
  ∧ NoDup (search_contracts contracts search_term).
Proof.
  intros Hget.
  assert (StronglySorted cell_le (CStr <$> contracts) ∧ NoDup (CStr <$> contracts))
    as [Hs Hnd].
  { unfold get_available_contracts in Hget.
    destruct (lookup_report report_type dataframes) as [df|].
    2:{ injection Hget as Hnil. symmetry in Hnil. apply fmap_nil_inv in Hnil as ->.
        split; constructor. }
    destruct (empty df).
    { injection Hget as Hnil. symmetry in Hnil. apply fmap_nil_inv in Hnil as ->.
      split; constructor. }
    destruct (find_col is_contract_col (columns df)) as [col|].
    2:{ injection Hget as Hnil. symmetry in Hnil. apply fmap_nil_inv in Hnil as ->.
        split; constructor. }
    unfold sorted in Hget. destruct (_ && _); [done|]. injection Hget as <-. split.
    - apply StronglySorted_merge_sort; apply _.
    - rewrite merge_sort_Permutation. apply NoDup_unique. }
  split.
  - apply StronglySorted_filter.
    assert (∀ l, StronglySorted cell_le (CStr <$> l) → StronglySorted String.le l) as H.
    { induction l as [|x l IH]; [constructor|].
      rewrite fmap_cons. intros [Hx Hl]%StronglySorted_cons. constructor; [by apply IH|].
      rewrite Forall_fmap in Hx. eapply Forall_impl; [done|].
      intros y Hy. unfold cell_le in Hy. simpl in Hy. by apply Is_true_true. }
    by apply H.
  - apply NoDup_filter. by apply (NoDup_fmap_1 CStr).
Qed.

Lemma search_available_sorted_witness :
  StronglySorted String.le (search_contracts ["GOLD"; "OIL"] "o")
  ∧ NoDup (search_contracts ["GOLD"; "OIL"] "o").
Proof.
  apply (search_available_sorted two_reports "legacy_fut" "o" ["GOLD"; "OIL"]).
  vm_compute. reflexivity.
Defined.

(** ** The ticks of the date axis *)

Lemma StronglySorted_fmap_seqZ (f : Z → Z) (n : nat) (m : Z) :
  (∀ i j, m ≤ i → i < j → j < m + Z.of_nat n → f i < f j) →
  StronglySorted Z.lt (f <$> seqZ m (Z.of_nat n)).
Proof.
  revert m. induction n as [|n IH]; intros m Hf; [constructor|].
  rewrite seqZ_cons by lia. rewrite fmap_cons.
  replace (Z.pred (Z.of_nat (S n))) with (Z.of_nat n) by lia.
  constructor.
  - apply IH. intros i j ???. apply Hf; lia.
  - apply Forall_fmap, Forall_forall. intros j [? ?]%elem_of_seqZ. apply Hf; lia.
Qed.

Lemma tick_step (len k i : Z) :
  0 < k → k ≤ len → 0 ≤ i → (i * len) `div` k + 1 ≤ ((i + 1) * len) `div` k.
Proof.
  intros Hk Hlen Hi.
  replace ((i * len) `div` k + 1) with ((i * len + 1 * k) `div` k)
    by (rewrite Z.div_add by lia; lia).
  apply Z.div_le_mono; [lia|]. nia.
Qed.

Lemma tick_mono (len k i j : Z) :
  0 < k → k ≤ len → 0 ≤ i → i < j → (i * len) `div` k < (j * len) `div` k.
Proof.
  intros Hk Hlen Hi Hij.
  pose proof (tick_step len k i Hk Hlen Hi) as Hstep.
  assert (((i + 1) * len) `div` k ≤ (j * len) `div` k); [|lia].
  apply Z.div_le_mono; [lia|]. nia.
Qed.

(** X6: The ticks of a table with rows: as many as rows up to fifteen, the first
    one on the first row, strictly increasing, every one the position of a
    row.  A table with no row gets no tick. *)
Theorem tick_indices_in_range (len : Z) :
  (len ≤ 0 → tick_indices len = [])
  ∧ (0 < len →
     length (tick_indices len) = Z.to_nat (Z.min 15 len)
     ∧ head (tick_indices len) = Some 0
     ∧ StronglySorted Z.lt (tick_indices len)
     ∧ ∀ i, i ∈ tick_indices len → 0 ≤ i < len).
Proof.
  unfold tick_indices. cbv zeta. split.
  - intros Hlen. destruct (0 <? Z.min 15 len) eqn:H; [lia|done].
  - intros Hlen. set (k := Z.min 15 len).
    assert (0 < k ∧ k ≤ len ∧ k ≤ 15) as (Hk & Hkl & Hk15) by lia.
    destruct (0 <? k) eqn:H; [|lia]. split_and!.
    + by rewrite length_map, length_seqZ.
    + rewrite seqZ_cons by done. simpl. by rewrite Z.div_0_l by lia.
    + replace (seqZ 0 k) with (seqZ 0 (Z.of_nat (Z.to_nat k)))
        by (by rewrite Z2Nat.id by lia).
      apply (StronglySorted_fmap_seqZ (λ i, (i * len) `div` k)).
      intros i j ???. apply tick_mono; lia.
    + intros i (x & -> & [? ?]%elem_of_seqZ)%list_elem_of_fmap. split.
      * apply Z.div_pos; nia.
      * apply Z.div_lt_upper_bound; [lia|]. nia.
Qed.

Lemma tick_indices_in_range_witness :
  length (tick_indices 40) = Z.to_nat (Z.min 15 40)
  ∧ head (tick_indices 40) = Some 0
  ∧ StronglySorted Z.lt (tick_indices 40)
  ∧ ∀ i, i ∈ tick_indices 40 → 0 ≤ i < 40.
Proof. apply (proj2 (tick_indices_in_range 40)). lia. Defined.

(** ** The working copy of plot_trader_positions *)

Lemma cell_eqb_str c name : cell_eqb c (CStr name) = true ↔ c = CStr name.
Proof.
  destruct c; simpl; rewrite ?bool_decide_eq_true; split; congruence.
Qed.

Lemma elem_of_filter_bound cmp d b t r :
  r ∈ rows (filter_bound cmp d b t)
  ↔ r ∈ rows t ∧ ∀ z, b = Some z → cmp (cell r d) z = true.
Proof.
  destruct b as [z|]; simpl.
  - rewrite list_elem_of_filter. split.
    + intros [? ?]. split; [done|]. by intros ? [= <-].
    + intros [? H]. split; [|done]. by apply H.
  - split; [|by intros [? _]]. intros ?. split; [done|]. by intros.
Qed.

Lemma window_row date_col cols rs lo hi r :
  r ∈ rows (sort_rows date_col
              (filter_bound date_leb date_col hi
                 (filter_bound date_geb date_col lo (mkTable cols rs))))
  ↔ r ∈ rs ∧ (∀ z, lo = Some z → date_geb (cell r date_col) z = true)
          ∧ (∀ z, hi = Some z → date_leb (cell r date_col) z = true).
Proof.
  unfold sort_rows. simpl.
  rewrite merge_sort_Permutation, !elem_of_filter_bound. simpl. tauto.
Qed.

Section Prepare.

Variable parse_datetime : string → option Z.

Implicit Types (r : gmap string Cell) (t df : Table) (d : string).


Lemma to_datetime_not_str c c' :
  to_datetime parse_datetime c = inr c' → is_str c' = false.
Proof.
  destruct c as [s|z|]; simpl; [destruct (parse_datetime s)|..]; by intros [= <-].
Qed.

(** The conversion of the date column, row by row. *)
Lemma convert_dates_rows d rs rs' :
  convert_dates parse_datetime d rs = inr rs' →
  Forall2 (λ r r', ∃ c, to_datetime parse_datetime (cell r d) = inr c ∧ r' = <[d := c]> r)
          rs rs'.
Proof.
  revert rs'. induction rs as [|r rs IH]; intros rs'; simpl.
  { intros [= <-]. constructor. }
  destruct (to_datetime parse_datetime (cell r d)) as [e|c] eqn:Hc; [done|].
  destruct (convert_dates parse_datetime d rs) as [e|rs''] eqn:Hrs; [done|].
  intros [= <-]. constructor; [by exists c|by apply IH].
Qed.

(** The two bounds of the date filter: the five years before today when no
    bound is given, else the bounds given. *)
Lemma prepare_unfold now df contract_name start_date end_date plot_df :
  prepare parse_datetime now df contract_name start_date end_date = inr plot_df →
  ∃ date_col contract_col rs lo hi,
    find_col is_plot_date_col (columns df) = Some date_col
    ∧ find_col is_contract_col (columns df) = Some contract_col
    ∧ convert_dates parse_datetime date_col
        (rows (select_eq contract_col (CStr contract_name) df)) = inr rs
    ∧ (if negb (truthy start_date) && negb (truthy end_date)
       then (inr (Some (midnight (now - 5 * 365 * day_ns))), inr (Some (midnight now)))
       else (bound parse_datetime start_date, bound parse_datetime end_date))
      = (inr lo, inr hi)
    ∧ plot_df
      = sort_rows date_col
          (filter_bound date_leb date_col hi
             (filter_bound date_geb date_col lo (mkTable (columns df) rs))).
Proof.
  unfold prepare.
  destruct (find_col is_plot_date_col (columns df)) as [date_col|]; [|done].
  destruct (find_col is_contract_col (columns df)) as [contract_col|]; [|done].
  cbv zeta. destruct (empty _); [done|].
  destruct (convert_dates _ _ _) as [e|rs] eqn:Hrs; [done|].
  destruct (if negb (truthy start_date) && negb (truthy end_date) then _ else _)
    as [[e|lo] [e'|hi]]; try done.
  intros [= <-]. by exists date_col, contract_col, rs, lo, hi.
Qed.

End Prepare.

(** X7: The working copy is in date order, missing dates last, and its date
    column holds timestamps and missing values only: the sort of a mixed
    column, which raises, cannot happen. *)
Theorem prepare_sorted (parse_datetime : string → option Z) (now : Z) (df : Table)
    (contract_name : string) (start_date end_date : option string) (plot_df : Table) :
  prepare parse_datetime now df contract_name start_date end_date = inr plot_df →
  ∃ date_col, find_col is_plot_date_col (columns df) = Some date_col
    ∧ Sorted (row_le date_col) (rows plot_df)
    ∧ ∀ r, r ∈ rows plot_df → is_str (cell r date_col) = false.
Proof.
  intros (date_col & contract_col & rs & lo & hi & Hd & Hc & Hrs & Hb & ->)%prepare_unfold.
  exists date_col. split; [done|]. split.
  - unfold sort_rows. simpl. apply Sorted_merge_sort. apply _.
  - intros r (Hr & _)%window_row.
    apply convert_dates_rows in Hrs.
    apply list_elem_of_lookup in Hr as [i Hi].
    destruct (Forall2_lookup_r _ _ _ _ _ Hrs Hi) as (r0 & _ & c & Hc0 & ->).
    rewrite cell_insert_eq. exact (to_datetime_not_str parse_datetime _ _ Hc0).
Qed.

Lemma prepare_sorted_witness :
  ∃ date_col, find_col is_plot_date_col (columns legacy_df) = Some date_col
    ∧ Sorted (row_le date_col) (rows (sort_rows "As of Date in Form YYYY-MM-DD" legacy_df))
    ∧ ∀ r, r ∈ rows (sort_rows "As of Date in Form YYYY-MM-DD" legacy_df) →
           is_str (cell r date_col) = false.
Proof.
  apply (prepare_sorted Parsers.iso_datetime 1704900000000000000 legacy_df "GOLD"
           None None).
  vm_compute. reflexivity.
Defined.

(** X8: The working copy has the columns of the table, and each of its rows is
    a row of the table for the contract asked for, with its date converted
    and nothing else changed. *)
Theorem prepare_rows_origin (parse_datetime : string → option Z) (now : Z) (df : Table)
    (contract_name : string) (start_date end_date : option string) (plot_df : Table) :
  prepare parse_datetime now df contract_name start_date end_date = inr plot_df →
  ∃ date_col contract_col,
    find_col is_plot_date_col (columns df) = Some date_col
    ∧ find_col is_contract_col (columns df) = Some contract_col
    ∧ columns plot_df = columns df
    ∧ ∀ r, r ∈ rows plot_df →
           ∃ r0 c, r0 ∈ rows df
                   ∧ cell r0 contract_col = CStr contract_name
                   ∧ to_datetime parse_datetime (cell r0 date_col) = inr c
                   ∧ r = <[date_col := c]> r0.
Proof.
  intros Hprep. pose proof (prepare_columns _ _ _ _ _ _ _ Hprep) as Hcols.
  apply prepare_unfold in Hprep
    as (date_col & contract_col & rs & lo & hi & Hd & Hc & Hrs & Hb & ->).
  exists date_col, contract_col. split_and!; [done..|].
  intros r (Hr & _)%window_row.
  apply convert_dates_rows in Hrs.
  apply list_elem_of_lookup in Hr as [i Hi].
  destruct (Forall2_lookup_r _ _ _ _ _ Hrs Hi) as (r0 & Hr0 & c & Hc0 & ->).
  apply list_elem_of_lookup_2 in Hr0. simpl in Hr0.
  apply list_elem_of_filter in Hr0 as [Heq Hr0]. apply cell_eqb_str in Heq.
  by exists r0, c.
Qed.

Lemma prepare_rows_origin_witness :
  ∃ date_col contract_col,
    find_col is_plot_date_col (columns legacy_df) = Some date_col
    ∧ find_col is_contract_col (columns legacy_df) = Some contract_col
    ∧ columns (sort_rows "As of Date in Form YYYY-MM-DD" legacy_df) = columns legacy_df
    ∧ ∀ r, r ∈ rows (sort_rows "As of Date in Form YYYY-MM-DD" legacy_df) →
           ∃ r0 c, r0 ∈ rows legacy_df
                   ∧ cell r0 contract_col = CStr "GOLD"
                   ∧ to_datetime Parsers.iso_datetime (cell r0 date_col) = inr c
                   ∧ r = <[date_col := c]> r0.
Proof.
  apply (prepare_rows_origin Parsers.iso_datetime 1704900000000000000 legacy_df "GOLD"
           None None).
  vm_compute. reflexivity.
Defined.



(** ** Calls of plot_trader_positions that stop before the branch *)

Lemma filter_none {A} (P : A → Prop) `{!∀ x, Decision (P x)} (l : list A) :
  (∀ x, x ∈ l → ¬ P x) → filter P l = [].
Proof.
  induction l as [|x l IH]; intros Hl; [done|].
  rewrite filter_cons_False by (apply Hl; left). apply IH. intros y Hy. apply Hl. by right.
Qed.

Lemma convert_dates_raises parse_datetime d rs r s :
  r ∈ rs → cell r d = CStr s → parse_datetime s = None →
  ∃ s', convert_dates parse_datetime d rs = inl (DateParseError s')
        ∧ parse_datetime s' = None.
Proof.
  intros Hr Hs Hnone. induction rs as [|r0 rs IH]; [by apply elem_of_nil in Hr|].
  simpl. destruct (to_datetime parse_datetime (cell r0 d)) as [e|c] eqn:Hc.
  - unfold to_datetime in Hc. destruct (cell r0 d) as [s0|z|]; [|done..].
    destruct (parse_datetime s0) eqn:Hs0; [done|]. injection Hc as <-. by exists s0.
  - apply elem_of_cons in Hr as [->|Hr].
    { unfold to_datetime in Hc. by rewrite Hs, Hnone in Hc. }
    destruct (IH Hr) as (s' & -> & Hs'). by exists s'.
Qed.

(** X10: A contract name that no row of the table holds, letter for letter: the
    call prints that no data was found and returns; it draws nothing and
    raises nothing. *)
Theorem plot_unknown_contract (parse_number parse_datetime : string → option Z) (now : Z)
    (df : Table) (contract_name report_type : string) (start_date end_date : option string)
    (date_col contract_col : string) :
  find_col is_plot_date_col (columns df) = Some date_col →
  find_col is_contract_col (columns df) = Some contract_col →
  (∀ r, r ∈ rows df → cell r contract_col ≠ CStr contract_name) →
  plot_trader_positions parse_number parse_datetime now df contract_name report_type
    start_date end_date
  = Returned (mkRun [NoDataForContract contract_name] (mkTable (columns df) []) [] None).
Proof.
  intros Hd Hc Hnone. unfold plot_trader_positions, prepare. rewrite Hd, Hc. cbv zeta.
  assert (select_eq contract_col (CStr contract_name) df = mkTable (columns df) []) as ->.
  { unfold select_eq. f_equal. apply filter_none.
    intros r Hr Heq%cell_eqb_str. by apply (Hnone r). }
  done.
Qed.

Lemma plot_unknown_contract_witness :
  plot_trader_positions Parsers.decimal_number Parsers.iso_datetime 1704900000000000000
    gold_df "gold" "legacy_fut" None None
  = Returned (mkRun [NoDataForContract "gold"] (mkTable (columns gold_df) []) [] None).
Proof.
  apply (plot_unknown_contract Parsers.decimal_number Parsers.iso_datetime
           1704900000000000000 gold_df "gold" "legacy_fut" None None
           "Report_Date_as_YYYY-MM-DD" "Market_and_Exchange_Names").
  - reflexivity.
  - reflexivity.
  - intros r Hr. unfold gold_df in Hr. simpl in Hr.
    apply list_elem_of_singleton in Hr as ->. by vm_compute.
Defined.

(** X11: One date of the contract that cannot be parsed makes the call raise,
    whatever the dates asked for: the whole date column of the contract is
    converted before any row is filtered. *)
Theorem plot_unparsable_date_raises (parse_number parse_datetime : string → option Z)
    (now : Z) (df : Table) (contract_name report_type : string)
    (start_date end_date : option string) (date_col contract_col : string)
    (r : gmap string Cell) (s : string) :
  find_col is_plot_date_col (columns df) = Some date_col →
  find_col is_contract_col (columns df) = Some contract_col →
  r ∈ rows df →
  cell r contract_col = CStr contract_name →
  cell r date_col = CStr s →
  parse_datetime s = None →
  ∃ s', plot_trader_positions parse_number parse_datetime now df contract_name report_type
          start_date end_date
        = Raised (DateParseError s')
        ∧ parse_datetime s' = None.
Proof.
  intros Hd Hc Hr Hname Hs Hnone. unfold plot_trader_positions, prepare.
  rewrite Hd, Hc. cbv zeta.
  assert (r ∈ rows (select_eq contract_col (CStr contract_name) df)) as Hsel.
  { simpl. apply list_elem_of_filter. split; [by apply cell_eqb_str|done]. }
  assert (empty (select_eq contract_col (CStr contract_name) df) = false) as ->.
  { unfold empty. destruct (rows (select_eq _ _ df)) as [|r0 rs] eqn:Hrows.
    - by apply elem_of_nil in Hsel.
    - simpl. destruct (columns df) as [|c cs] eqn:Hcols; [|done].
      by unfold find_col in Hd. }
  destruct (convert_dates_raises parse_datetime date_col _ r s Hsel Hs Hnone)
    as (s' & -> & Hs').
  by exists s'.
Qed.

Lemma plot_unparsable_date_raises_witness :
  ∃ s', plot_trader_positions Parsers.decimal_number (λ _, None) 1704900000000000000
          gold_df "GOLD" "legacy_fut" None None
        = Raised (DateParseError s')
        ∧ (λ _ : string, None : option Z) s' = None.
Proof.
  apply (plot_unparsable_date_raises Parsers.decimal_number (λ _, None)
           1704900000000000000 gold_df "GOLD" "legacy_fut" None None
           "Report_Date_as_YYYY-MM-DD" "Market_and_Exchange_Names"
           {[ "Market_and_Exchange_Names" := CStr "GOLD";
              "Report_Date_as_YYYY-MM-DD" := CStr "2024-01-02";
              "Comm_Positions_Long_All" := CInt 1000;
              "Comm_Positions_Short_All" := CInt 400 ]} "2024-01-02").
  - reflexivity.
  - reflexivity.
  - left.
  - by vm_compute.
  - by vm_compute.
  - reflexivity.
Defined.

(** ** What the resolver can choose *)

Lemma classify1_sound col c s :
  classify1 col = Some (c, s) →
  contains "positions" (lower col) = true
  ∧ category_of (lower col) = Some c
  ∧ has_side s (lower col) = true.
Proof.
  unfold classify1. cbv zeta.
  destruct (contains "positions" (lower col)); [|done].
  destruct (category_of (lower col)) as [c'|]; [|done].
  destruct (has_side Long (lower col)) eqn:Hl.
  { by intros [= -> <-]. }
  destruct (has_side Short (lower col)) eqn:Hs; [|done].
  by intros [= -> <-].
Qed.

Lemma candidate2_sound c s col :
  candidate2 c s col = true →
  contains "trader" (lower col) = true
  ∧ category_of (lower col) = Some c
  ∧ has_side s (lower col) = true.
Proof.
  unfold candidate2. cbv zeta.
  intros [[? ?%bool_decide_eq_true]%andb_prop ?]%andb_prop. done.
Qed.

Lemma category_of_sound col_lower c :
  category_of col_lower = Some c →
  match c with
  | Commercial => contains "commercial" col_lower = true
                  ∧ contains "noncommercial" col_lower = false
  | NonCommercial => contains "noncommercial" col_lower = true
                     ∧ contains "spreading" col_lower = false
  | NonReportable => contains "nonreportable" col_lower = true
  end.
Proof.
  unfold category_of.
  destruct (contains "commercial" col_lower), (contains "noncommercial" col_lower),
    (contains "spreading" col_lower), (contains "nonreportable" col_lower);
    simpl; intros [= <-]; done.
Qed.

(** X12: A column the resolver gives to a role is a column of the table, of the
    "positions" or of the "traders" kind, with "(all)" and the word of the
    side in its name, and of the category of the role by the category test:
    never a "noncommercial" column for Commercial, never a "spreading"
    column for the Speculators.  No column serves two categories. *)
Theorem resolved_column_sound (cols : list string) (c : Category) (s : Side) (x : string) :
  get c s (resolve_positions cols) = Some x →
  x ∈ cols
  ∧ (contains "positions" (lower x) = true ∨ contains "trader" (lower x) = true)
  ∧ contains "(all)" (lower x) = true
  ∧ contains (match s with Long => "long" | Short => "short" end) (lower x) = true
  ∧ match c with
    | Commercial => contains "commercial" (lower x) = true
                    ∧ contains "noncommercial" (lower x) = false
    | NonCommercial => contains "noncommercial" (lower x) = true
                       ∧ contains "spreading" (lower x) = false
    | NonReportable => contains "nonreportable" (lower x) = true
    end
  ∧ ∀ c' s', get c' s' (resolve_positions cols) = Some x → c' = c.
Proof.
  assert (∀ c s x, get c s (resolve_positions cols) = Some x →
            x ∈ cols
            ∧ (contains "positions" (lower x) = true ∨ contains "trader" (lower x) = true)
            ∧ category_of (lower x) = Some c
            ∧ has_side s (lower x) = true) as Hsound.
  { clear. intros c s x H. unfold resolve_positions in H. cbv zeta in H.
    assert (get c s (pass1 cols) = Some x ∨ (x ∈ cols ∧ candidate2 c s x = true))
      as [H1|[Hin H2]].
    { destruct (pass2_runs (pass1 cols)); [by apply pass2_loop_Some|by left]. }
    - apply pass1_Some in H1 as [Hin (? & ? & ?)%classify1_sound]. auto.
    - apply candidate2_sound in H2 as (? & ? & ?). auto. }
  intros (Hin & Hkind & Hcat & Hside)%Hsound. split_and!; [done..| | | |].
  - destruct s; simpl in Hside; by apply andb_prop in Hside as [_ ?].
  - destruct s; simpl in Hside; by apply andb_prop in Hside as [? _].
  - by apply category_of_sound.
  - intros c' s' (_ & _ & Hcat' & _)%Hsound. congruence.
Qed.

Lemma resolved_column_sound_witness :
  let x := "Commercial Positions-Long (All) - revised" in
  x ∈ two_commercial_long
  ∧ (contains "positions" (lower x) = true ∨ contains "trader" (lower x) = true)
  ∧ contains "(all)" (lower x) = true
  ∧ contains "long" (lower x) = true
  ∧ (contains "commercial" (lower x) = true ∧ contains "noncommercial" (lower x) = false)
  ∧ ∀ c' s', get c' s' (resolve_positions two_commercial_long) = Some x → c' = Commercial.
Proof.
  apply (resolved_column_sound two_commercial_long Commercial Long
           "Commercial Positions-Long (All) - revised").
  reflexivity.
Defined.

(** ** The bars of the chart *)

(** X13: A legacy call that reaches the branch draws a chart exactly when some
    category is complete; it then prints nothing and draws one bar series
    per complete category, in the order Commercial, Speculators, Small
    Speculators, with the label and the colour of the category: the series
    holds the net column of the category in the working copy, one value per
    row.  The number of rows of the working copy does not change. *)
Theorem legacy_chart_bars (parse_number : string → option Z) (report_type : string)
    (t : Table) :
  let rs := resolve_positions (columns t) in
  let cs := filter (λ c, complete c rs = true) [Commercial; NonCommercial; NonReportable] in
  let label c := match c with
                 | Commercial => "Large Commercials"
                 | NonCommercial => "Large Speculators"
                 | NonReportable => "Small Speculators"
                 end in
  let color c := match c with
                 | Commercial => "red"
                 | NonCommercial => "blue"
                 | NonReportable => "yellow"
                 end in
  ∃ run, legacy_branch parse_number report_type t = Returned run
    ∧ length (rows (final_plot_df run)) = length (rows t)
    ∧ match chart run with
      | None => cs = []
      | Some bars =>
          cs ≠ []
          ∧ printed run = []
          ∧ bars = (λ c, mkBar (label c) (color c)
                           (column_values (net_name c) (final_plot_df run))) <$> cs
          ∧ ∀ bar, bar ∈ bars → length (bar_values bar) = length (rows t)
      end.
Proof.
  intros rs cs label color. unfold legacy_branch. cbv zeta. fold rs.
  pose proof (derive_length parse_number rs t) as Hn.
  pose proof (derive_data parse_number rs t) as Hdata.
  destruct (derive parse_number rs t) as [t' td]. simpl in Hn, Hdata.
  assert (td = (λ c, (label c, net_name c, color c)) <$> cs) as Htd.
  { rewrite Hdata. unfold cs. rewrite !filter_cons, filter_nil.
    destruct (complete Commercial rs), (complete NonCommercial rs),
      (complete NonReportable rs); repeat case_decide; done. }
  clear Hdata.
  destruct td as [|d td]; eexists; (split; [done|]); simpl; (split; [done|]).
  - symmetry in Htd. by apply fmap_nil_inv in Htd.
  - split; [by intros E; rewrite E in Htd|]. split; [done|].
    change (bar_of t' d :: map (bar_of t') td) with (bar_of t' <$> (d :: td)).
    rewrite Htd, <-list_fmap_compose. split; [done|].
    intros bar (c & -> & _)%list_elem_of_fmap. simpl.
    unfold column_values. by rewrite length_map.
Qed.

(** ** More on consolidation *)

Lemma add_table_empty st report_type df :
  empty df = true → add_table st (report_type, df) = st.
Proof.
  intros He. unfold add_table. cbn [fst snd]. rewrite He. by destruct st.2.
Qed.

(** X14: An empty table changes nothing in consolidation: no key, no row, no
    message, wherever it stands in the collection. *)
Theorem consolidate_skips_empty (pre post : list (string * Table)) (report_type : string)
    (df : Table) :
  empty df = true →
  consolidate_by_contract (pre ++ (report_type, df) :: post)
  = consolidate_by_contract (pre ++ post).
Proof.
  intros He. unfold consolidate_by_contract. cbv zeta.
  rewrite !fold_left_app. cbn [fold_left]. by rewrite add_table_empty.
Qed.

Lemma consolidate_skips_empty_witness :
  consolidate_by_contract
    ([("legacy_fut", first_report_df)]
       ++ ("tff_fut", mkTable ["Market_and_Exchange_Names"] [])
       :: [("disaggregated_fut", second_report_df)])
  = consolidate_by_contract
      ([("legacy_fut", first_report_df)] ++ [("disaggregated_fut", second_report_df)]).
Proof.
  apply (consolidate_skips_empty [("legacy_fut", first_report_df)]
           [("disaggregated_fut", second_report_df)] "tff_fut").
  reflexivity.
Defined.




(** ** Keys and columns of the consolidated tables *)

(** The table an entry of the collection gives to a contract. *)
Lemma contribution_Some k entry t :
  contribution k entry = Some t
  ↔ empty entry.2 = false
    ∧ ∃ col, find_col is_contract_col (columns entry.2) = Some col
             ∧ k ∈ column_values col entry.2
             ∧ t = select_eq col k entry.2.
Proof.
  unfold contribution. destruct (empty entry.2).
  { split; [done|]. by intros [? _]. }
  destruct (find_col is_contract_col (columns entry.2)) as [col|].
  2:{ split; [done|]. by intros (_ & col & ? & _). }
  case_bool_decide as Hk.
  - split.
    + intros [= <-]. split; [done|]. by exists col.
    + by intros (_ & col' & [= <-] & _ & ->).
  - split; [done|]. by intros (_ & col' & [= <-] & ? & _).
Qed.

Lemma elem_of_contributions k dataframes t :
  t ∈ contributions k dataframes
  ↔ ∃ entry, entry ∈ dataframes ∧ contribution k entry = Some t.
Proof. unfold contributions. by rewrite list_elem_of_omap. Qed.

Lemma merged_is_Some d ts acc :
  is_Some (fold_left (step_merge d) ts acc) ↔ is_Some acc ∨ ts ≠ [].
Proof.
  revert acc. induction ts as [|t ts IH]; intros acc; simpl.
  - split; [by left|]. by intros [?|?].
  - rewrite IH. unfold step_merge. split; [by right|]. intros _. left. by eexists.
Qed.





Lemma lookup_report_elem_of report_type dataframes df :
  lookup_report report_type dataframes = Some df → (report_type, df) ∈ dataframes.
Proof.
  unfold lookup_report. intros ([k t] & Hfind & ->)%fmap_Some.
  apply find_some in Hfind as [Hin Hk]. apply bool_decide_eq_true in Hk.
  simpl in Hk. subst k. by apply list_elem_of_In.
Qed.

(** What [get_available_contracts] lists comes from the contract column of
    the table of the report type. *)
Lemma available_contract_found dataframes report_type l k :
  get_available_contracts dataframes report_type = inr l → k ∈ l →
  ∃ df col, (report_type, df) ∈ dataframes
            ∧ empty df = false
            ∧ find_col is_contract_col (columns df) = Some col
            ∧ k ∈ column_values col df.
Proof.
  unfold get_available_contracts.
  destruct (lookup_report report_type dataframes) as [df|] eqn:Hdf.
  2:{ intros [= <-] ?%elem_of_nil. done. }
  destruct (empty df) eqn:He.
  { intros [= <-] ?%elem_of_nil. done. }
  destruct (find_col is_contract_col (columns df)) as [col|] eqn:Hcol.
  2:{ intros [= <-] ?%elem_of_nil. done. }
  unfold sorted. destruct (_ && _); [done|]. intros [= <-].
  rewrite merge_sort_Permutation. intros Hk. apply (proj1 (elem_of_unique _ _)) in Hk.
  exists df, col. split_and!; [|done..]. by apply lookup_report_elem_of.
Qed.

(** X17: Every contract that [get_available_contracts] lists for a report type is
    a key of the consolidated dictionary, when consolidation raises nothing. *)
Theorem listed_contract_consolidated (d : string) (dataframes : list (string * Table))
    (report_type : string) (l : list Cell) (k : Cell) :
  (∀ entry, entry ∈ dataframes → find_col is_date_col (columns entry.2) = Some d) →
  comparable (all_values d dataframes) = true →
  get_available_contracts dataframes report_type = inr l →
  k ∈ l →
  ∃ log c, consolidate_by_contract dataframes = (log, inr c) ∧ is_Some (c !! k).
Proof.
  intros Hd Hcmp Hl Hk.
  destruct (consolidate_returns d dataframes Hd Hcmp) as (log & c & Hrun & Hlook).
  exists log, c. split; [done|]. rewrite Hlook. apply merged_is_Some. right.
  destruct (available_contract_found _ _ _ _ Hl Hk) as (df & col & Hin & He & Hcol & Hkc).
  assert (select_eq col k df ∈ contributions k dataframes) as Ht.
  { apply elem_of_contributions. exists (report_type, df). split; [done|].
    apply contribution_Some. split; [done|]. by exists col. }
  intros Hnil. rewrite Hnil in Ht. by apply elem_of_nil in Ht.
Qed.

Lemma listed_contract_consolidated_witness :
  ∃ log c, consolidate_by_contract two_reports = (log, inr c) ∧ is_Some (c !! CStr "OIL").
Proof.
  apply (listed_contract_consolidated "Report_Date_as_YYYY-MM-DD" two_reports "legacy_fut"
           [CStr "GOLD"; CStr "OIL"]).
  - intros entry H. unfold two_reports in H. set_unfold.
    destruct H as [->|[->|[]]]; reflexivity.
  - reflexivity.
  - vm_compute. reflexivity.
  - right. left.
Defined.

(** ** The dictionary of the manager *)

Lemma lookup_dict_set_eq key v (d : list (string * Table)) :
  lookup_report key (dict_set key v d) = Some v.
Proof.
  unfold lookup_report. induction d as [|[k x] d IH]; simpl.
  - by rewrite bool_decide_eq_true_2.
  - case_bool_decide as Hk; simpl.
    + by rewrite bool_decide_eq_true_2.
    + by rewrite bool_decide_eq_false_2.
Qed.

Lemma lookup_dict_set_ne key key' v (d : list (string * Table)) :
  key ≠ key' → lookup_report key' (dict_set key v d) = lookup_report key' d.
Proof.
  intros Hne. unfold lookup_report. induction d as [|[k x] d IH]; simpl.
  - by rewrite bool_decide_eq_false_2.
  - case_bool_decide as Hk; simpl.
    + subst k. by rewrite !bool_decide_eq_false_2.
    + case_bool_decide; [done|apply IH].
Qed.

Lemma REPORT_TYPES_NoDup : NoDup REPORT_TYPES.
Proof. apply (bool_decide_unpack (NoDup REPORT_TYPES)). by vm_compute. Qed.

(** ** load_from_parquet *)

Section Loading.

Context {E : Type}.
Variable report_path : string → string.
Variable file_exists : string → bool.
Variable read_parquet : string → E + Table.

Local Abbreviation step := (load_step E report_path file_exists read_parquet).

Lemma load_steps_raised rts d e : fold_left step rts (d, Some e) = (d, Some e).
Proof. by induction rts. Qed.

(** The loop over report types whose files, when they exist, can be read:
    it raises nothing; the report types with a file hold the table of the
    file, every other key holds what it held. *)
Lemma load_steps_return rts d :
  NoDup rts →
  (∀ rt, rt ∈ rts → file_exists (report_path rt) = true →
         ∃ df, read_parquet (report_path rt) = inr df) →
  ∃ d', fold_left step rts (d, None) = (d', None)
        ∧ ∀ rt, (rt ∈ rts → file_exists (report_path rt) = true →
                 ∀ df, read_parquet (report_path rt) = inr df →
                       lookup_report rt d' = Some df)
                ∧ (rt ∉ rts ∨ file_exists (report_path rt) = false →
                   lookup_report rt d' = lookup_report rt d).
Proof.
  revert d. induction rts as [|rt0 rts IH]; intros d Hnd Hread.
  { exists d. split; [done|]. intros rt. split; [by intros ?%elem_of_nil|done]. }
  apply NoDup_cons in Hnd as [Hrt0 Hnd].
  cbn [fold_left]. unfold load_step at 2. cbn [fst snd].
  destruct (file_exists (report_path rt0)) eqn:Hex.
  - destruct (Hread rt0) as [df0 Hdf0]; [left|done|]. rewrite Hdf0.
    destruct (IH (dict_set rt0 df0 d)) as (d' & Hfold & Hd'); [done| |].
    { intros rt ? ?. apply Hread; [by right|done]. }
    exists d'. split; [done|]. intros rt. split.
    + intros [->|Hin]%elem_of_cons Hrt df Hdf.
      * rewrite (proj2 (Hd' rt0)) by (by left). rewrite lookup_dict_set_eq. congruence.
      * by apply (proj1 (Hd' rt)).
    + intros Hout. destruct (decide (rt = rt0)) as [->|Hne].
      { destruct Hout as [Hout|Hout]; [destruct Hout; left|congruence]. }
      rewrite (proj2 (Hd' rt)), lookup_dict_set_ne by (rewrite ?not_elem_of_cons in Hout; tauto || done).
      done.
  - destruct (IH d) as (d' & Hfold & Hd'); [done| |].
    { intros rt ? ?. apply Hread; [by right|done]. }
    exists d'. split; [done|]. intros rt. split.
    + intros [->|Hin]%elem_of_cons Hrt df Hdf; [congruence|].
      by apply (proj1 (Hd' rt)).
    + intros Hout. destruct (decide (rt = rt0)) as [->|Hne].
      { apply (proj2 (Hd' rt0)). by left. }
      apply (proj2 (Hd' rt)). rewrite not_elem_of_cons in Hout. tauto.
Qed.

End Loading.

(** X18: Loading every report type, when each file that exists can be read: the
    call returns the dictionary of the manager, in which each report type
    with a file holds the table of its file and every other key holds what
    it held before. *)
Theorem load_all_report_types {E : Type} (report_path : string → string)
    (file_exists : string → bool) (read_parquet : string → E + Table)
    (report_type : option string) (dataframes : list (string * Table)) :
  truthy report_type = false →
  (∀ rt, rt ∈ REPORT_TYPES → file_exists (report_path rt) = true →
         ∃ df, read_parquet (report_path rt) = inr df) →
  ∃ loaded, load_from_parquet E report_path file_exists read_parquet report_type dataframes
            = (loaded, inr (LoadedAll loaded))
    ∧ ∀ rt, (rt ∈ REPORT_TYPES → file_exists (report_path rt) = true →
             ∀ df, read_parquet (report_path rt) = inr df →
                   lookup_report rt loaded = Some df)
            ∧ (rt ∉ REPORT_TYPES ∨ file_exists (report_path rt) = false →
               lookup_report rt loaded = lookup_report rt dataframes).
Proof.
  intros Hrt Hread.
  destruct (load_steps_return report_path file_exists read_parquet REPORT_TYPES dataframes
              REPORT_TYPES_NoDup Hread) as (loaded & Hfold & Hlook).
  exists loaded. split; [|done].
  unfold load_from_parquet. destruct report_type as [[|? ?]|]; try done.
  - cbv zeta. by rewrite Hfold.
  - cbv zeta. by rewrite Hfold.
Qed.

Lemma load_all_report_types_witness :
  let report_path := λ rt, "data/by_report_type/" +:+ rt +:+ ".parquet" in
  let file_exists := λ p, bool_decide (p = "data/by_report_type/legacy_fut.parquet") in
  let read_parquet := λ p : string, inr gold_df : string + Table in
  ∃ loaded, load_from_parquet string report_path file_exists read_parquet None []
            = (loaded, inr (LoadedAll loaded))
    ∧ ∀ rt, (rt ∈ REPORT_TYPES → file_exists (report_path rt) = true →
             ∀ df, read_parquet (report_path rt) = inr df →
                   lookup_report rt loaded = Some df)
            ∧ (rt ∉ REPORT_TYPES ∨ file_exists (report_path rt) = false →
               lookup_report rt loaded = lookup_report rt []).
Proof.
  apply (load_all_report_types (E := string)
           (λ rt, "data/by_report_type/" +:+ rt +:+ ".parquet")
           (λ p, bool_decide (p = "data/by_report_type/legacy_fut.parquet"))
           (λ p, inr gold_df) None []).
  - reflexivity.
  - intros rt _ _. by exists gold_df.
Defined.

(** X19: Loading every report type, when the file of one of them cannot be read:
    the call raises what the reader raised; the report types before it are
    loaded already and stay in the dictionary of the manager, the one that
    failed and those after it hold what they held before. *)
Theorem load_all_raises {E : Type} (report_path : string → string)
    (file_exists : string → bool) (read_parquet : string → E + Table)
    (report_type : option string) (dataframes : list (string * Table))
    (before after : list string) (failing : string) (e : E) :
  truthy report_type = false →
  REPORT_TYPES = before ++ failing :: after →
  (∀ rt, rt ∈ before → file_exists (report_path rt) = true →
         ∃ df, read_parquet (report_path rt) = inr df) →
  file_exists (report_path failing) = true →
  read_parquet (report_path failing) = inl e →
  ∃ loaded, load_from_parquet E report_path file_exists read_parquet report_type dataframes
            = (loaded, inl e)
    ∧ ∀ rt, (rt ∈ before → file_exists (report_path rt) = true →
             ∀ df, read_parquet (report_path rt) = inr df →
                   lookup_report rt loaded = Some df)
            ∧ (rt ∉ before ∨ file_exists (report_path rt) = false →
               lookup_report rt loaded = lookup_report rt dataframes).
Proof.
  intros Hrt Hsplit Hread Hex He.
  assert (NoDup before) as Hnd.
  { pose proof REPORT_TYPES_NoDup as H. rewrite Hsplit in H.
    by apply NoDup_app in H as [? _]. }
  destruct (load_steps_return report_path file_exists read_parquet before dataframes
              Hnd Hread) as (loaded & Hfold & Hlook).
  exists loaded. split; [|done].
  assert (fold_left (load_step E report_path file_exists read_parquet) REPORT_TYPES
            (dataframes, None) = (loaded, Some e)) as Hall.
  { rewrite Hsplit, fold_left_app, Hfold. cbn [fold_left]. unfold load_step at 2.
    cbn [fst snd]. rewrite Hex, He. apply load_steps_raised. }
  unfold load_from_parquet. destruct report_type as [[|? ?]|]; try done.
  - cbv zeta. by rewrite Hall.
  - cbv zeta. by rewrite Hall.
Qed.

Lemma load_all_raises_witness :
  let report_path := λ rt, "data/by_report_type/" +:+ rt +:+ ".parquet" in
  let file_exists := λ p : string, true in
  let read_parquet := λ p,
    if bool_decide (p = "data/by_report_type/legacy_fut.parquet")
    then inr gold_df else inl "corrupt file" in
  ∃ loaded, load_from_parquet string report_path file_exists read_parquet None []
            = (loaded, inl "corrupt file")
    ∧ ∀ rt, (rt ∈ ["legacy_fut"] → file_exists (report_path rt) = true →
             ∀ df, read_parquet (report_path rt) = inr df →
                   lookup_report rt loaded = Some df)
            ∧ (rt ∉ ["legacy_fut"] ∨ file_exists (report_path rt) = false →
               lookup_report rt loaded = lookup_report rt []).
Proof.
  apply (load_all_raises (E := string)
           (λ rt, "data/by_report_type/" +:+ rt +:+ ".parquet")
           (λ p, true)
           (λ p, if bool_decide (p = "data/by_report_type/legacy_fut.parquet")
                 then inr gold_df else inl "corrupt file")
           None [] ["legacy_fut"]
           ["supplemental_futopt"; "disaggregated_fut"; "disaggregated_futopt";
            "traders_in_financial_futures_fut"; "traders_in_financial_futures_futopt"]
           "legacy_futopt" "corrupt file").
  - reflexivity.
  - reflexivity.
  - intros rt Hin _. apply list_elem_of_singleton in Hin as ->. by exists gold_df.
  - reflexivity.
  - reflexivity.
Defined.

(** ** fetch_all_data *)

Section Fetching.

Context {E : Type}.
Variable cot_all : string → E + option Table.
Variable to_datetime_column : list Cell → option (list Cell).
Variable min_max : list Cell → E + (Cell * Cell).

Local Abbreviation step := (fetch_report E cot_all to_datetime_column min_max).
Local Abbreviation stored := (fetched_table E cot_all to_datetime_column).
Local Abbreviation try_col := (try_to_datetime to_datetime_column).

Implicit Types (d : list (string * Table)) (log : list (FetchMsg E)).

(** One report type: the dictionary gets its table, or is left as it is;
    the lines printed before stay. *)
Lemma fetch_report_stores log d rt :
  (fetch_report E cot_all to_datetime_column min_max (log, d) rt).2
  = match stored rt with Some t => dict_set rt t d | None => d end.
Proof.
  unfold fetch_report, fetched_table. cbn [fst snd].
  destruct (cot_all rt) as [e|[df|]]; [done| |done].
  destruct (empty df); [done|]. cbv zeta.
  destruct (date_columns (columns df)) as [|c cs] eqn:Hcs; [done|].
  by destruct (min_max _) as [e|[lo hi]].
Qed.

Lemma fetch_report_log log d rt m :
  m ∈ log → m ∈ (fetch_report E cot_all to_datetime_column min_max (log, d) rt).1.
Proof.
  intros Hm. unfold fetch_report. cbn [fst snd].
  assert (∀ x, m ∈ (log ++ [Fetching rt]) ++ [x]) as H.
  { intros x. rewrite !elem_of_app. auto. }
  destruct (cot_all rt) as [e|[df|]]; [apply H| |apply H].
  destruct (empty df); [apply H|]. cbv zeta.
  destruct (date_columns (columns df)) as [|c cs]; [apply H|].
  destruct (min_max _) as [e|[lo hi]]; apply H.
Qed.

Lemma fetch_reports_log rts log d m :
  m ∈ log → m ∈ (fold_left step rts (log, d)).1.
Proof.
  revert log d. induction rts as [|rt rts IH]; intros log d Hm; [done|].
  cbn [fold_left].
  destruct (fetch_report E cot_all to_datetime_column min_max (log, d) rt)
    as [log1 d1] eqn:H1.
  apply IH. change log1 with (log1, d1).1. rewrite <-H1. by apply fetch_report_log.
Qed.

Lemma fetch_reports_store rts log d :
  NoDup rts →
  ∀ rt, lookup_report rt (fold_left step rts (log, d)).2
        = match (if bool_decide (rt ∈ rts) then stored rt else None) with
          | Some t => Some t
          | None => lookup_report rt d
          end.
Proof.
  revert log d. induction rts as [|rt0 rts IH]; intros log d Hnd rt.
  { by rewrite bool_decide_eq_false_2 by apply not_elem_of_nil. }
  apply NoDup_cons in Hnd as [Hrt0 Hnd]. cbn [fold_left].
  destruct (fetch_report E cot_all to_datetime_column min_max (log, d) rt0)
    as [log1 d1] eqn:H1.
  rewrite IH by done.
  assert (d1 = match stored rt0 with Some t => dict_set rt0 t d | None => d end) as ->.
  { change d1 with (log1, d1).2. rewrite <-H1. apply fetch_report_stores. }
  destruct (decide (rt = rt0)) as [->|Hne].
  - rewrite bool_decide_eq_false_2 by done.
    rewrite (bool_decide_eq_true_2 (rt0 ∈ rt0 :: rts)) by left.
    destruct (stored rt0); [apply lookup_dict_set_eq|done].
  - rewrite (bool_decide_ext (rt ∈ rt0 :: rts) (rt ∈ rts))
      by (rewrite elem_of_cons; intuition congruence).
    case_bool_decide; [destruct (stored rt); [done|]|];
      (destruct (stored rt0); [by apply lookup_dict_set_ne|done]).
Qed.

(** The line a report type ends with stays in the log to the end. *)
Lemma fetch_reports_line rts log d rt m :
  rt ∈ rts →
  (∀ log0 d0, m ∈ (fetch_report E cot_all to_datetime_column min_max (log0, d0) rt).1) →
  m ∈ (fold_left step rts (log, d)).1.
Proof.
  intros (pre & post & ->)%list_elem_of_split Hm.
  rewrite fold_left_app. cbn [fold_left].
  destruct (fold_left step pre (log, d)) as [log1 d1].
  destruct (fetch_report E cot_all to_datetime_column min_max (log1, d1) rt)
    as [log2 d2] eqn:H2.
  apply fetch_reports_log. change log2 with (log2, d2).1. rewrite <-H2. apply Hm.
Qed.

(** *** The conversion of the date columns *)

(** The conversion gives as many values as the column has. *)
Hypothesis to_datetime_column_length :
  ∀ l l', to_datetime_column l = Some l' → length l' = length l.

(** One column: the rows stay as many, and every field of another column
    stays as it is. *)
Lemma try_to_datetime_rows t c :
  columns (try_col t c) = columns t
  ∧ Forall2 (λ r r', ∀ col, col ≠ c → r' !! col = r !! col) (rows t) (rows (try_col t c)).
Proof.
  unfold try_to_datetime.
  destruct (to_datetime_column (column_values c t)) as [values|] eqn:Hv.
  2:{ split; [done|]. by apply Forall_Forall2_diag, Forall_forall. }
  apply to_datetime_column_length in Hv. unfold column_values in Hv.
  rewrite length_map in Hv. unfold set_column. simpl. split; [done|].
  revert values Hv. induction (rows t) as [|r rs IH]; intros [|v values] Hv;
    simplify_eq/=; constructor.
  - intros col Hne. by rewrite lookup_insert_ne.
  - by apply IH.
Qed.

(** The loop over the date columns. *)
Lemma try_to_datetime_fold cs t :
  columns (fold_left try_col cs t) = columns t
  ∧ Forall2 (λ r r', ∀ col, col ∉ cs → r' !! col = r !! col)
            (rows t) (rows (fold_left try_col cs t)).
Proof.
  revert t. induction cs as [|c cs IH]; intros t.
  { split; [done|]. by apply Forall_Forall2_diag, Forall_forall. }
  cbn [fold_left]. destruct (IH (try_col t c)) as [Hcols Hrows].
  destruct (try_to_datetime_rows t c) as [Hcols1 Hrows1].
  split; [by rewrite Hcols|].
  eapply Forall2_trans; [|exact Hrows1|exact Hrows].
  intros r1 r2 r3 H12 H23 col [Hne Hout]%not_elem_of_cons.
  by rewrite H23, H12.
Qed.

End Fetching.



(** The table of the witness, evaluated: the date of [gold_df] is converted. *)
Example gold_df_fetched :
  column_values "Report_Date_as_YYYY-MM-DD"
    (fold_left (try_to_datetime Parsers.iso_datetime_column)
       (date_columns (columns gold_df)) gold_df)
  = [CInt 1704153600000000000].
Proof. vm_compute; reflexivity. Qed.

(** X21: The conversion of a column giving as many values as the column has,
    the table [fetch_all_data] stores has the columns of the table
    downloaded and as many rows, in the same order; in every row, every
    field of a column whose name has no 'date' is what it was: only date
    columns are touched. *)
Theorem fetched_table_columns {E : Type} (cot_all : string → E + option Table)
    (to_datetime_column : list Cell → option (list Cell)) (rt : string) (t : Table) :
  (∀ l l', to_datetime_column l = Some l' → length l' = length l) →
  fetched_table E cot_all to_datetime_column rt = Some t →
  ∃ df, cot_all rt = inr (Some df)
    ∧ columns t = columns df
    ∧ length (rows t) = length (rows df)
    ∧ ∀ i r, rows df !! i = Some r →
        ∃ r', rows t !! i = Some r'
              ∧ ∀ col, contains "date" (lower col) = false → r' !! col = r !! col.
Proof.
  intros Hlen. unfold fetched_table. destruct (cot_all rt) as [e|[df|]]; [done| |done].
  destruct (empty df); [done|]. intros [= <-]. exists df. split; [done|].
  destruct (try_to_datetime_fold to_datetime_column Hlen (date_columns (columns df)) df)
    as [Hcols Hrows].
  split; [done|]. split; [symmetry; by eapply Forall2_length|].
  intros i r Hr. destruct (Forall2_lookup_l _ _ _ _ _ Hrows Hr) as (r' & Hr' & Hsame).
  exists r'. split; [done|]. intros col Hdate. apply Hsame.
  unfold date_columns. rewrite list_elem_of_filter. intros [? _]. congruence.
Qed.

Lemma fetched_table_columns_witness :
  let cot_all := λ rt : string, inr (Some gold_df) : string + option Table in
  let t := fold_left (try_to_datetime Parsers.iso_datetime_column)
             (date_columns (columns gold_df)) gold_df in
  ∃ df, cot_all "legacy_fut" = inr (Some df)
    ∧ columns t = columns df
    ∧ length (rows t) = length (rows df)
    ∧ ∀ i r, rows df !! i = Some r →
        ∃ r', rows t !! i = Some r'
              ∧ ∀ col, contains "date" (lower col) = false → r' !! col = r !! col.
Proof.
  apply (fetched_table_columns (E := string) (λ rt, inr (Some gold_df))
           Parsers.iso_datetime_column "legacy_fut").
  - intros l l' H. apply mapM_Some_1, Forall2_length in H. by symmetry.
  - reflexivity.
Defined.

(** X22: An "Error fetching" line does not mean that the table is missing.  When
    the download of a report type gives a table with rows and the line that
    sums it up cannot be printed, for want of a date column or because the
    minimum or maximum raises, the error line is printed and the table is in
    the dictionary of the manager all the same. *)
Theorem fetch_error_line_table_stored {E : Type} (cot_all : string → E + option Table)
    (to_datetime_column : list Cell → option (list Cell))
    (min_max : list Cell → E + (Cell * Cell))
    (dataframes : list (string * Table)) (rt : string) (df : Table) :
  rt ∈ REPORT_TYPES → cot_all rt = inr (Some df) → empty df = false →
  let result := fetch_all_data E cot_all to_datetime_column min_max dataframes in
  let t := fold_left (try_to_datetime to_datetime_column) (date_columns (columns df)) df in
  is_Some (lookup_report rt result.2)
  ∧ (date_columns (columns df) = [] →
     lookup_report rt result.2 = Some df
     ∧ ErrorFetching rt NoFirstDateColumn ∈ result.1)
  ∧ (∀ c cs e, date_columns (columns df) = c :: cs →
               min_max (column_values c t) = inl e →
               lookup_report rt result.2 = Some t
               ∧ ErrorFetching rt (Outside e) ∈ result.1).
Proof.
  intros Hin Hdf He result t. unfold result, fetch_all_data.
  assert (lookup_report rt
            (fold_left (fetch_report E cot_all to_datetime_column min_max) REPORT_TYPES
               ([FetchingAll], dataframes)).2 = Some t) as Hstored.
  { rewrite (fetch_reports_store cot_all to_datetime_column min_max REPORT_TYPES _ _
               REPORT_TYPES_NoDup rt).
    unfold fetched_table. by rewrite bool_decide_eq_true_2, Hdf, He. }
  split; [by rewrite Hstored|]. split.
  - intros Hnone. split; [rewrite Hstored; unfold t; by rewrite Hnone|].
    apply (fetch_reports_line cot_all to_datetime_column min_max REPORT_TYPES _ _ rt);
      [done|]. intros log0 d0.
    unfold fetch_report. cbn [fst snd]. rewrite Hdf, He. cbv zeta. rewrite Hnone.
    cbn [fst]. rewrite elem_of_app, list_elem_of_singleton. by right.
  - intros c cs e Hcs Hmm. split; [done|].
    apply (fetch_reports_line cot_all to_datetime_column min_max REPORT_TYPES _ _ rt);
      [done|]. intros log0 d0.
    unfold t in Hmm. rewrite Hcs in Hmm.
    unfold fetch_report. cbn [fst snd]. rewrite Hdf, He. cbv zeta. rewrite Hcs, Hmm.
    cbn [fst]. rewrite elem_of_app, list_elem_of_singleton. by right.
Qed.

Lemma fetch_error_line_table_stored_witness :
  let cot_all := λ rt : string, inr (Some undated_df) : string + option Table in
  let min_max := λ l : list Cell, inl "not comparable" : string + (Cell * Cell) in
  let result := fetch_all_data string cot_all Parsers.iso_datetime_column min_max [] in
  let t := fold_left (try_to_datetime Parsers.iso_datetime_column)
             (date_columns (columns undated_df)) undated_df in
  is_Some (lookup_report "legacy_fut" result.2)
  ∧ (date_columns (columns undated_df) = [] →
     lookup_report "legacy_fut" result.2 = Some undated_df
     ∧ ErrorFetching "legacy_fut" NoFirstDateColumn ∈ result.1)
  ∧ (∀ c cs e, date_columns (columns undated_df) = c :: cs →
               min_max (column_values c t) = inl e →
               lookup_report "legacy_fut" result.2 = Some t
               ∧ ErrorFetching "legacy_fut" (Outside e) ∈ result.1).
Proof.
  apply (fetch_error_line_table_stored (E := string) (λ rt, inr (Some undated_df))
           Parsers.iso_datetime_column (λ l, inl "not comparable") [] "legacy_fut"
           undated_df).
  - left.
  - reflexivity.
  - reflexivity.
Defined.
